(** * The library views of simple-book-api, embedded in Rocq

    The module [library/views.py] keeps three process-wide dictionaries
    ([books], [users], [borrowed_books]) and two counters, and exposes four
    Django REST framework views over them.  This development embeds the
    views as state-passing functions and proves the properties the
    specification states about them. *)

From stdpp Require Import gmap strings list fin_maps.

Local Open Scope Z_scope.

#[local] Set Warnings "-register-all".

(** ** Request values

    [request.data.get(k)] hands the view whatever the parser produced for
    field [k]: [None] when the field is absent, otherwise a JSON value (or a
    string, for form-encoded bodies).  The views only ever test such a value
    for truthiness, use it as a dictionary key, compare it with an integer
    and interpolate it into an f-string, so a float is represented by what
    these operations can observe of it: the integer it is equal to, if any. *)

Inductive pyfloat :=
| FWhole (z : Z)    (* a float equal to the integer [z]: 0.0, 1.0, 2.0, ... *)
| FFrac.            (* any other float: 1.5, 1e400, ... *)

Inductive value :=
| VNone
| VBool (b : bool)
| VInt (z : Z)
| VFloat (f : pyfloat)
| VStr (s : string)
| VList (l : list value)
| VDict (d : list (string * value)).

(** Python truthiness, the test behind [not v]. *)
Definition truthy (v : value) : bool :=
  match v with
  | VNone => false
  | VBool b => b
  | VInt z => negb (z =? 0)
  | VFloat (FWhole z) => negb (z =? 0)
  | VFloat FFrac => true
  | VStr s => negb (String.eqb s "")
  | VList l => negb (Nat.eqb (length l) 0)
  | VDict d => negb (Nat.eqb (length d) 0)
  end.

(** Lists and dicts have no hash; using one as a dictionary key raises. *)
Definition hashable (v : value) : bool :=
  match v with
  | VList _ | VDict _ => false
  | _ => true
  end.

(** The integer a value compares equal to under Python's [==], if any:
    [True == 1], [1.0 == 1], but ["1" != 1]. *)
Definition int_value (v : value) : option Z :=
  match v with
  | VBool b => Some (Z.b2z b)
  | VInt z => Some z
  | VFloat (FWhole z) => Some z
  | _ => None
  end.

(** [v == n] for an integer [n]. *)
Definition py_eq_int (v : value) (n : Z) : bool :=
  match int_value v with
  | Some z => z =? n
  | None => false
  end.

(** ** Exceptions and results *)

Inductive exn := TypeError | KeyError | AttributeError.

Inductive result (A : Type) :=
| Ok (a : A)
| Raise (e : exn).
Arguments Ok {A} a.
Arguments Raise {A} e.

(** Looking a request value up in a dictionary whose keys are integers, as
    [v in d] followed by [d[v]] does.  The value is hashed first, so an
    unhashable one raises [TypeError] even when the dictionary is empty; a
    hashable value finds the entry whose integer key it is equal to. *)
Definition py_lookup {A} (v : value) (d : gmap Z A) : result (option (Z * A)) :=
  if hashable v then
    Ok (match int_value v with
        | Some k => match d !! k with
                    | Some x => Some (k, x)
                    | None => None
                    end
        | None => None
        end)
  else Raise TypeError.

(** ** Insertion-ordered dictionaries

    [borrowed_books] is iterated with [.items()], so its entries are kept in
    insertion order.  Python identifies keys up to [==], hence the entry is
    stored under the integer the request's [bookId] is equal to; the value is
    the request's [userId] as it came. *)

Fixpoint dict_set {A} (k : Z) (v : A) (d : list (Z * A)) : list (Z * A) :=
  match d with
  | [] => [(k, v)]
  | (k', v') :: d' =>
      if decide (k' = k) then (k', v) :: d' else (k', v') :: dict_set k v d'
  end.

Fixpoint dict_get {A} (k : Z) (d : list (Z * A)) : option A :=
  match d with
  | [] => None
  | (k', v') :: d' => if decide (k' = k) then Some v' else dict_get k d'
  end.

Definition dict_keys {A} (d : list (Z * A)) : list Z := d.*1.

(** ** Records and module state *)

Record Book := mkBook {
  b_id : Z;
  title : value;
  author : value;
  is_borrowed : bool
}.

Record User := mkUser {
  u_id : Z;
  name : value
}.

Record State := mkState {
  books : gmap Z Book;
  users : gmap Z User;
  borrowed_books : list (Z * value);
  book_id_counter : Z;
  user_id_counter : Z
}.

(** The module as first imported. *)
Definition initial : State :=
  {| books := ∅; users := ∅; borrowed_books := [];
     book_id_counter := 1; user_id_counter := 1 |}.

(** [book['is_borrowed'] = True] *)
Definition mark_borrowed (book : Book) : Book :=
  {| b_id := b_id book; title := title book; author := author book;
     is_borrowed := true |}.

(** ** Responses *)

(** The pieces of an f-string: literal text and interpolated values. *)
Inductive fpart :=
| FText (s : string)
| FValue (v : value).

Inductive body :=
| BError (msg : string)            (* {"error": msg} *)
| BMessage (parts : list fpart)    (* {"message": f"..."} *)
| BBook (book : Book)
| BUser (user : User)
| BBooks (l : list Book).

Record Response := Resp { status : Z; content : body }.

(** Rendering of an f-string, given the conversion [str] applied to each
    interpolated value. *)
Definition format (str : value → string) (parts : list fpart) : string :=
  foldr (λ p acc, match p with
                  | FText t => t +:+ acc
                  | FValue v => str v +:+ acc
                  end) "" parts.

(** [request.data.get(k)] *)
Definition data_get (data : gmap string value) (k : string) : value :=
  default VNone (data !! k).

(** ** The four views *)

Definition BookCreateView_post (data : gmap string value) (s : State)
  : result Response * State :=
  let title := data_get data "title" in
  let author := data_get data "author" in
  if negb (truthy title) || negb (truthy author) then
    (Ok (Resp 400 (BError "Title and author are required.")), s)
  else
    let book := {| b_id := book_id_counter s; title := title;
                   author := author; is_borrowed := false |} in
    (Ok (Resp 201 (BBook book)),
     {| books := <[book_id_counter s := book]> (books s);
        users := users s;
        borrowed_books := borrowed_books s;
        book_id_counter := book_id_counter s + 1;
        user_id_counter := user_id_counter s |}).

Definition UserCreateView_post (data : gmap string value) (s : State)
  : result Response * State :=
  let name := data_get data "name" in
  if negb (truthy name) then
    (Ok (Resp 400 (BError "Name is required.")), s)
  else
    let user := {| u_id := user_id_counter s; name := name |} in
    (Ok (Resp 201 (BUser user)),
     {| books := books s;
        users := <[user_id_counter s := user]> (users s);
        borrowed_books := borrowed_books s;
        book_id_counter := book_id_counter s;
        user_id_counter := user_id_counter s + 1 |}).

Definition BorrowBookView_post (data : gmap string value) (s : State)
  : result Response * State :=
  let user_id := data_get data "userId" in
  let book_id := data_get data "bookId" in
  if negb (truthy user_id) || negb (truthy book_id) then
    (Ok (Resp 400 (BError "userId and bookId are required.")), s)
  else
    match py_lookup user_id (users s) with
    | Raise e => (Raise e, s)
    | Ok None => (Ok (Resp 404 (BError "User not found.")), s)
    | Ok (Some (_, user)) =>
        match py_lookup book_id (books s) with
        | Raise e => (Raise e, s)
        | Ok None => (Ok (Resp 404 (BError "Book not found.")), s)
        | Ok (Some (k, book)) =>
            if is_borrowed book then
              (Ok (Resp 400 (BError "Book is already borrowed.")), s)
            else
              let book := mark_borrowed book in
              (Ok (Resp 200 (BMessage [FText "Book '"; FValue (title book);
                                       FText "' borrowed by user '";
                                       FValue (name user); FText "'."])),
               {| books := <[k := book]> (books s);
                  users := users s;
                  borrowed_books := dict_set k user_id (borrowed_books s);
                  book_id_counter := book_id_counter s;
                  user_id_counter := user_id_counter s |})
        end
    end.

(** The comprehension
    [[books[book_id] for book_id, uid in borrowed_books.items() if uid == user_id]];
    [books[book_id]] raises [KeyError] on a key that is not there. *)
Fixpoint user_borrowed_books (bs : gmap Z Book) (user_id : Z)
    (items : list (Z * value)) : result (list Book) :=
  match items with
  | [] => Ok []
  | (book_id, uid) :: rest =>
      if py_eq_int uid user_id then
        match bs !! book_id with
        | None => Raise KeyError
        | Some book =>
            match user_borrowed_books bs user_id rest with
            | Ok l => Ok (book :: l)
            | Raise e => Raise e
            end
        end
      else user_borrowed_books bs user_id rest
  end.

(** [user_id] comes from the route [users/<int:user_id>/borrowed-books], so
    it is an integer. *)
Definition UserBorrowedBooksView_get (user_id : Z) (s : State)
  : result Response * State :=
  match users s !! user_id with
  | None => (Ok (Resp 404 (BError "User not found.")), s)
  | Some _ =>
      match user_borrowed_books (books s) user_id (borrowed_books s) with
      | Ok l => (Ok (Resp 200 (BBooks l)), s)
      | Raise e => (Raise e, s)
      end
  end.

(** ** Sequences of requests *)

Inductive Op :=
| RegisterBook (data : gmap string value)
| RegisterUser (data : gmap string value)
| BorrowBook (data : gmap string value)
| ListBorrowedBooks (user_id : Z).

Definition step (op : Op) (s : State) : result Response * State :=
  match op with
  | RegisterBook data => BookCreateView_post data s
  | RegisterUser data => UserCreateView_post data s
  | BorrowBook data => BorrowBookView_post data s
  | ListBorrowedBooks user_id => UserBorrowedBooksView_get user_id s
  end.

(** Serving the requests [ops] one after the other from state [s]: the
    final state and the outcome of each request. *)
Fixpoint exec (ops : list Op) (s : State) : list (result Response) * State :=
  match ops with
  | [] => ([], s)
  | op :: ops' =>
      let '(r, s1) := step op s in
      let '(rs, s2) := exec ops' s1 in
      (r :: rs, s2)
  end.

Definition run (ops : list Op) : State := (exec ops initial).2.

Definition reachable (s : State) : Prop := ∃ ops, run ops = s.

(** An outcome is a failure when it is an exception or a 4xx/5xx response. *)
Definition failed (r : result Response) : bool :=
  match r with
  | Ok resp => 400 <=? status resp
  | Raise _ => true
  end.

(** The scenario of the specification, executed. *)
Definition request (fields : list (string * value)) : gmap string value :=
  list_to_map fields.

Definition scenario : list Op :=
  [ RegisterBook (request [("title", VStr "1984"); ("author", VStr "Orwell")]);
    RegisterUser (request [("name", VStr "Alice")]);
    BorrowBook (request [("userId", VInt 1); ("bookId", VInt 1)]);
    BorrowBook (request [("userId", VInt 1); ("bookId", VInt 1)]);
    ListBorrowedBooks 1 ].

(** ** Requests with an arbitrary body

    [request.data] is whatever the parser made of the body.  Only a JSON
    object (or a form) is a mapping with a [get] method; an array, string,
    number, boolean or [null] has none, so the first statement of each
    [post], [request.data.get(...)], raises [AttributeError].  Of two
    members of an object with the same name the later one wins. *)
Definition request_data (body : value) : result (gmap string value) :=
  match body with
  | VDict d => Ok (list_to_map (reverse d))
  | _ => Raise AttributeError
  end.

Inductive Request :=
| PostBook (body : value)
| PostUser (body : value)
| PostBorrow (body : value)
| GetBorrowedBooks (user_id : Z).

Definition handle (req : Request) (s : State) : result Response * State :=
  match req with
  | PostBook body =>
      match request_data body with
      | Ok data => BookCreateView_post data s
      | Raise e => (Raise e, s)
      end
  | PostUser body =>
      match request_data body with
      | Ok data => UserCreateView_post data s
      | Raise e => (Raise e, s)
      end
  | PostBorrow body =>
      match request_data body with
      | Ok data => BorrowBookView_post data s
      | Raise e => (Raise e, s)
      end
  | GetBorrowedBooks user_id => UserBorrowedBooksView_get user_id s
  end.

(** The state after serving [reqs] one after the other from a fresh
    module. *)
Definition serve_all (reqs : list Request) : State :=
  foldl (λ s req, (handle req s).2) initial reqs.

(** ** Vocabulary of the statements *)

(** [sub] occurs in [s] as a substring. *)
Definition occurs_in (sub s : string) : Prop :=
  ∃ pre post, s = pre +:+ sub +:+ post.

(** The ids handed out by the registrations among a list of outcomes. *)
Definition issued_book_id (r : result Response) : option Z :=
  match r with
  | Ok {| content := BBook book |} => Some (b_id book)
  | _ => None
  end.

Definition issued_user_id (r : result Response) : option Z :=
  match r with
  | Ok {| content := BUser user |} => Some (u_id user)
  | _ => None
  end.

Definition issued_book_ids (rs : list (result Response)) : list Z :=
  omap issued_book_id rs.

Definition issued_user_ids (rs : list (result Response)) : list Z :=
  omap issued_user_id rs.

(** The named error responses of the views. *)
Definition ids_required : Response :=
  Resp 400 (BError "userId and bookId are required.").
Definition user_not_found : Response := Resp 404 (BError "User not found.").
Definition book_not_found : Response := Resp 404 (BError "Book not found.").
Definition already_borrowed : Response :=
  Resp 400 (BError "Book is already borrowed.").

(** What the existence tests of [BorrowBookView.post] decide for a hashable
    request value: it is equal to a key of the dictionary. *)
Definition key_of {A} (v : value) (d : gmap Z A) : Prop :=
  ∃ k, int_value v = Some k ∧ is_Some (d !! k).

(** * The outcomes of a borrow request

    [BorrowBookView.post] leaves through one of seven exits; the relation
    below names them, with what is known at each. *)

Definition userId (data : gmap string value) : value := data_get data "userId".
Definition bookId (data : gmap string value) : value := data_get data "bookId".

Definition confirmation (book : Book) (user : User) : Response :=
  Resp 200 (BMessage [FText "Book '"; FValue (title book);
                      FText "' borrowed by user '"; FValue (name user);
                      FText "'."]).

Definition lent (k : Z) (book : Book) (user_id : value) (s : State) : State :=
  {| books := <[k := mark_borrowed book]> (books s);
     users := users s;
     borrowed_books := dict_set k user_id (borrowed_books s);
     book_id_counter := book_id_counter s;
     user_id_counter := user_id_counter s |}.

Inductive borrow_exit (data : gmap string value) (s : State)
  : result Response * State → Prop :=
| exit_missing :
    truthy (userId data) = false ∨ truthy (bookId data) = false →
    borrow_exit data s (Ok ids_required, s)
| exit_user_unhashable :
    truthy (userId data) = true → truthy (bookId data) = true →
    hashable (userId data) = false →
    borrow_exit data s (Raise TypeError, s)
| exit_no_user :
    truthy (userId data) = true → truthy (bookId data) = true →
    hashable (userId data) = true → ¬ key_of (userId data) (users s) →
    borrow_exit data s (Ok user_not_found, s)
| exit_book_unhashable n user :
    truthy (userId data) = true → truthy (bookId data) = true →
    int_value (userId data) = Some n → users s !! n = Some user →
    hashable (bookId data) = false →
    borrow_exit data s (Raise TypeError, s)
| exit_no_book n user :
    truthy (userId data) = true → truthy (bookId data) = true →
    int_value (userId data) = Some n → users s !! n = Some user →
    hashable (bookId data) = true → ¬ key_of (bookId data) (books s) →
    borrow_exit data s (Ok book_not_found, s)
| exit_conflict n user k book :
    truthy (userId data) = true → truthy (bookId data) = true →
    int_value (userId data) = Some n → users s !! n = Some user →
    int_value (bookId data) = Some k → books s !! k = Some book →
    is_borrowed book = true →
    borrow_exit data s (Ok already_borrowed, s)
| exit_success n user k book :
    truthy (userId data) = true → truthy (bookId data) = true →
    int_value (userId data) = Some n → users s !! n = Some user →
    int_value (bookId data) = Some k → books s !! k = Some book →
    is_borrowed book = false →
    borrow_exit data s (Ok (confirmation book user), lent k book (userId data) s).

(** * Well-formed states *)

Record wf (s : State) : Prop := {
  wf_counters : 1 ≤ book_id_counter s ∧ 1 ≤ user_id_counter s;
  wf_books : ∀ k b,
    books s !! k = Some b → b_id b = k ∧ 1 ≤ k < book_id_counter s;
  wf_users : ∀ k u,
    users s !! k = Some u → u_id u = k ∧ 1 ≤ k < user_id_counter s;
  wf_keys : NoDup (dict_keys (borrowed_books s));
  wf_borrowed : ∀ k,
    k ∈ dict_keys (borrowed_books s) ↔
    ∃ b, books s !! k = Some b ∧ is_borrowed b = true;
  wf_holders : ∀ k uid,
    (k, uid) ∈ borrowed_books s → key_of uid (users s)
}.

(** The error of a rejected book registration. *)
Definition title_author_required : Response :=
  Resp 400 (BError "Title and author are required.").

(** The entries of [borrowed_books] the comprehension keeps for [user_id]. *)
Definition held_by (user_id : Z) (e : Z * value) : Prop :=
  py_eq_int e.2 user_id = true.

#[local] Instance held_by_dec user_id e : Decision (held_by user_id e).
Proof. unfold held_by. apply _. Defined.

(** A conversion that agrees with Python's [str] on strings, the only
    values the scenario interpolates. *)
Definition str_of_string (v : value) : string :=
  match v with
  | VStr x => x
  | _ => ""
  end.

(** The error of a rejected user registration. *)
Definition name_required : Response :=
  Resp 400 (BError "Name is required.").

(** The outcomes that are confirmations of a borrow. *)
Definition is_confirmation (r : result Response) : bool :=
  match r with
  | Ok {| content := BMessage _ |} => true
  | _ => false
  end.

(** * Basic facts *)

Section values.

Lemma int_value_hashable v k : int_value v = Some k → hashable v = true.
Proof. destruct v as [| | |[]| | |]; simpl; congruence. Qed.

Lemma int_value_truthy v k : int_value v = Some k → k ≠ 0 → truthy v = true.
Proof.
  destruct v as [|[]| |[]| | |]; simpl; intros [= <-] Hk; try done;
    by apply negb_true_iff, Z.eqb_neq.
Qed.

Lemma int_value_zero_falsy v : int_value v = Some 0 → truthy v = false.
Proof. destruct v as [|[]| |[]| | |]; simpl; intros H; by simplify_eq. Qed.

Lemma py_eq_int_spec v n : py_eq_int v n = true ↔ int_value v = Some n.
Proof.
  unfold py_eq_int. destruct (int_value v) as [z|]; [|done].
  rewrite Z.eqb_eq. split; congruence.
Qed.

Lemma py_lookup_Some {A} v (d : gmap Z A) k x :
  py_lookup v d = Ok (Some (k, x)) ↔ int_value v = Some k ∧ d !! k = Some x.
Proof.
  unfold py_lookup. split.
  - destruct (hashable v); [|done].
    destruct (int_value v) as [z|]; [|done].
    destruct (d !! z) eqn:E; [|done]. intros [= <- <-]. done.
  - intros [Hv Hd]. rewrite (int_value_hashable _ _ Hv), Hv, Hd. done.
Qed.

Lemma py_lookup_None {A} v (d : gmap Z A) :
  py_lookup v d = Ok None ↔ hashable v = true ∧ ¬ key_of v d.
Proof.
  unfold py_lookup, key_of. split.
  - destruct (hashable v); [|done]. intros H. split; [done|].
    intros (k & Hk & [x Hx]). rewrite Hk, Hx in H. done.
  - intros [-> H]. f_equal.
    destruct (int_value v) as [k|]; [|done].
    destruct (d !! k) eqn:E; [|done].
    destruct H. exists k. eauto.
Qed.

Lemma py_lookup_Raise {A} v (d : gmap Z A) e :
  py_lookup v d = Raise e ↔ hashable v = false ∧ e = TypeError.
Proof.
  unfold py_lookup. destruct (hashable v); split; try done.
  - intros [? _]; done.
  - intros [= <-]; done.
  - intros [_ ->]; done.
Qed.

End values.

Section dicts.
Context {A : Type}.
Implicit Types (d : list (Z * A)) (k : Z) (v : A).

Lemma dict_get_set_eq k v d : dict_get k (dict_set k v d) = Some v.
Proof.
  induction d as [|[k' v'] d IH]; simpl.
  - by rewrite decide_True.
  - destruct (decide (k' = k)) as [->|Hne]; simpl.
    + by rewrite decide_True.
    + by rewrite decide_False.
Qed.

Lemma dict_get_set_ne k k' v d :
  k' ≠ k → dict_get k' (dict_set k v d) = dict_get k' d.
Proof.
  intros Hne. induction d as [|[k0 v0] d IH]; simpl.
  - by rewrite decide_False.
  - destruct (decide (k0 = k)) as [->|Hk0]; simpl.
    + by rewrite !decide_False.
    + destruct (decide (k0 = k')); done.
Qed.

(** Assigning to a key that is not there appends the entry. *)
Lemma dict_set_fresh k v d :
  k ∉ dict_keys d → dict_set k v d = d ++ [(k, v)].
Proof.
  unfold dict_keys. induction d as [|[k' v'] d IH]; simpl; [done|].
  rewrite not_elem_of_cons. intros [Hne Hd].
  rewrite decide_False by done. by rewrite IH.
Qed.

Lemma dict_keys_app d1 d2 : dict_keys (d1 ++ d2) = dict_keys d1 ++ dict_keys d2.
Proof. unfold dict_keys. apply fmap_app. Qed.

Lemma elem_of_dict_keys k d : k ∈ dict_keys d ↔ ∃ v, (k, v) ∈ d.
Proof.
  unfold dict_keys. rewrite list_elem_of_fmap. split.
  - intros ([k' v] & -> & H). eauto.
  - intros [v H]. exists (k, v). done.
Qed.

Lemma dict_get_Some k v d :
  NoDup (dict_keys d) → (k, v) ∈ d → dict_get k d = Some v.
Proof.
  unfold dict_keys. induction d as [|[k' v'] d IH]; simpl.
  - intros _ H. by apply elem_of_nil in H.
  - rewrite NoDup_cons. intros [Hk' Hnd]. rewrite elem_of_cons.
    intros [[= <- <-]|Hin].
    + by rewrite decide_True.
    + rewrite decide_False; [by apply IH|].
      intros ->. apply Hk'. apply list_elem_of_fmap. by exists (k, v).
Qed.

End dicts.

(** * The exits of a borrow request *)

Lemma borrow_exits data s : borrow_exit data s (BorrowBookView_post data s).
Proof.
  unfold BorrowBookView_post. fold (userId data) (bookId data).
  destruct (truthy (userId data)) eqn:Tu; simpl; [|constructor; by left].
  destruct (truthy (bookId data)) eqn:Tb; simpl; [|constructor; by right].
  destruct (py_lookup (userId data) (users s)) as [[[n user]|]|e] eqn:Lu.
  - apply py_lookup_Some in Lu as [Hn Hu].
    destruct (py_lookup (bookId data) (books s)) as [[[k book]|]|e] eqn:Lb.
    + apply py_lookup_Some in Lb as [Hk Hb].
      destruct (is_borrowed book) eqn:Hflag.
      * by eapply exit_conflict.
      * by eapply exit_success.
    + apply py_lookup_None in Lb as [Hh Hno]. by eapply exit_no_book.
    + apply py_lookup_Raise in Lb as [Hh ->]. by eapply exit_book_unhashable.
  - apply py_lookup_None in Lu as [Hh Hno]. by apply exit_no_user.
  - apply py_lookup_Raise in Lu as [Hh ->]. by apply exit_user_unhashable.
Qed.

(** * Well-formedness is invariant *)

Lemma wf_initial : wf initial.
Proof.
  split; simpl; try done.
  - apply NoDup_nil_2.
  - intros k. split.
    + by intros ?%elem_of_nil.
    + by intros (b & ? & _).
  - by intros k uid ?%elem_of_nil.
Qed.

Lemma wf_register_book data s : wf s → wf (BookCreateView_post data s).2.
Proof.
  intros [Hc Hb Hu Hk Hbor Hh]. unfold BookCreateView_post.
  destruct (negb _ || negb _); simpl; [by split|].
  split; simpl; try done.
  - lia.
  - intros k b. rewrite lookup_insert. case_decide as E.
    + intros [= <-]. simpl. lia.
    + intros H. apply Hb in H. lia.
  - intros k. rewrite Hbor. split; intros (b & H & Hflag).
    + exists b. split; [|done]. rewrite lookup_insert_ne; [done|].
      intros <-. apply Hb in H. lia.
    + rewrite lookup_insert in H. case_decide as E.
      * injection H as <-. done.
      * eauto.
Qed.

Lemma wf_register_user data s : wf s → wf (UserCreateView_post data s).2.
Proof.
  intros [Hc Hb Hu Hk Hbor Hh]. unfold UserCreateView_post.
  destruct (negb _); simpl; [by split|].
  split; simpl; try done.
  - lia.
  - intros k u. rewrite lookup_insert. case_decide as E.
    + intros [= <-]. simpl. lia.
    + intros H. apply Hu in H. lia.
  - intros k uid H. destruct (Hh _ _ H) as (n & Hn & [u Hun]).
    exists n. split; [done|].
    rewrite lookup_insert_ne; [by eexists|].
    intros <-. apply Hu in Hun. lia.
Qed.

Lemma not_borrowed_fresh s k book :
  wf s → books s !! k = Some book → is_borrowed book = false →
  k ∉ dict_keys (borrowed_books s).
Proof.
  intros Hwf Hb Hflag Hin. apply (wf_borrowed _ Hwf) in Hin as (b & Hb' & Hb'').
  congruence.
Qed.

Lemma wf_lent s k book n user uid :
  wf s → books s !! k = Some book → is_borrowed book = false →
  int_value uid = Some n → users s !! n = Some user →
  wf (lent k book uid s).
Proof.
  intros Hwf Hb Hflag Hn Hu.
  pose proof (not_borrowed_fresh _ _ _ Hwf Hb Hflag) as Hfresh.
  destruct Hwf as [Hc Hbs Hus Hk Hbor Hh].
  split; simpl; try done.
  - intros k' b. rewrite lookup_insert. case_decide as E.
    + intros [= <-]. subst k'. simpl. by apply Hbs.
    + apply Hbs.
  - rewrite dict_set_fresh, dict_keys_app by done.
    apply NoDup_app. split; [done|]. split.
    + intros x Hx. simpl. rewrite list_elem_of_singleton. by intros ->.
    + apply NoDup_singleton.
  - intros k'. rewrite dict_set_fresh, dict_keys_app, elem_of_app by done.
    simpl. rewrite list_elem_of_singleton, Hbor, lookup_insert.
    case_decide as E.
    + subst k'. split; [|by right]. intros _. by eexists.
    + split.
      * intros [H|H]; [done|congruence].
      * by left.
  - intros k' uid'. rewrite dict_set_fresh, elem_of_app by done.
    rewrite list_elem_of_singleton. intros [H|[= -> ->]].
    + by eapply Hh.
    + exists n. split; [done|]. by eexists.
Qed.

Lemma wf_borrow data s : wf s → wf (BorrowBookView_post data s).2.
Proof.
  intros Hwf. destruct (borrow_exits data s); simpl; try done.
  by eapply wf_lent.
Qed.

Lemma list_borrowed_state user_id s : (UserBorrowedBooksView_get user_id s).2 = s.
Proof.
  unfold UserBorrowedBooksView_get.
  destruct (users s !! user_id); [|done].
  by destruct (user_borrowed_books _ _ _).
Qed.

Lemma wf_step op s : wf s → wf (step op s).2.
Proof.
  destruct op; simpl.
  - apply wf_register_book.
  - apply wf_register_user.
  - apply wf_borrow.
  - by rewrite list_borrowed_state.
Qed.

Lemma exec_cons op ops s :
  exec (op :: ops) s =
  ((step op s).1 :: (exec ops (step op s).2).1, (exec ops (step op s).2).2).
Proof.
  simpl. destruct (step op s) as [r s1]. simpl.
  by destruct (exec ops s1) as [rs s2].
Qed.

Lemma exec_app ops1 ops2 s :
  exec (ops1 ++ ops2) s =
  ((exec ops1 s).1 ++ (exec ops2 (exec ops1 s).2).1,
   (exec ops2 (exec ops1 s).2).2).
Proof.
  revert s. induction ops1 as [|op ops1 IH]; intros s.
  - simpl. by destruct (exec ops2 s).
  - rewrite <- app_comm_cons, !exec_cons, IH. done.
Qed.

Lemma wf_exec ops s : wf s → wf (exec ops s).2.
Proof.
  revert s. induction ops as [|op ops IH]; intros s Hwf; [done|].
  rewrite exec_cons. simpl. by apply IH, wf_step.
Qed.

Lemma wf_run ops : wf (run ops).
Proof. apply wf_exec, wf_initial. Qed.

Lemma reachable_wf s : reachable s → wf s.
Proof. intros [ops <-]. apply wf_run. Qed.

Lemma run_snoc ops op : run (ops ++ [op]) = (step op (run ops)).2.
Proof.
  unfold run. rewrite exec_app. simpl.
  by destruct (step op (exec ops initial).2).
Qed.

Lemma run_app ops1 ops2 : run (ops1 ++ ops2) = (exec ops2 (run ops1)).2.
Proof. unfold run. by rewrite exec_app. Qed.

(** * Borrowing *)

Ltac borrow_exit_cases data s :=
  destruct (borrow_exits data s);
  unfold ids_required, user_not_found, book_not_found, already_borrowed,
    confirmation, key_of in *; simpl in *.

Ltac exit_auto :=
  unfold not; intros;
  repeat match goal with
         | H : _ ∧ _ |- _ => destruct H
         | H : _ ∨ _ |- _ => destruct H
         | H : ∃ _, _ |- _ => destruct H
         | H : is_Some _ |- _ => destruct H
         end;
  simplify_eq; try done;
  first [ by (exfalso; first [congruence | eauto 8]) | by eauto 10 | idtac ].


(** C1, as the code has it.  For every request on which the existence
    tests of [BorrowBookView.post] do not raise [TypeError], the view checks
    in this order: both ids present (truthy), else "userId and bookId are
    required."; the user exists, else "User not found."; the book exists,
    else "Book not found."; the book is not borrowed, else "Book is already
    borrowed.".  Each error is reported exactly when the earlier checks pass
    and its own fails, and the request succeeds exactly when all four pass.
    In particular, when both ids are present and neither exists the error is
    "User not found.", not "Book not found.". *)
Theorem borrow_check_order data s :
  (BorrowBookView_post data s).1 ≠ Raise TypeError →
  let r := (BorrowBookView_post data s).1 in
  let present := truthy (userId data) = true ∧ truthy (bookId data) = true in
  let user_exists := key_of (userId data) (users s) in
  let book_flag b :=
    ∃ k book, int_value (bookId data) = Some k ∧ books s !! k = Some book ∧
              is_borrowed book = b in
  (r = Ok ids_required ↔ ¬ present) ∧
  (r = Ok user_not_found ↔ present ∧ ¬ user_exists) ∧
  (r = Ok book_not_found ↔
     present ∧ user_exists ∧ ¬ key_of (bookId data) (books s)) ∧
  (r = Ok already_borrowed ↔ present ∧ user_exists ∧ book_flag true) ∧
  (failed r = false ↔ present ∧ user_exists ∧ book_flag false) ∧
  (present → ¬ user_exists → ¬ key_of (bookId data) (books s) →
     r = Ok user_not_found ∧ r ≠ Ok book_not_found).
Proof.
  intros Hr. simpl.
  borrow_exit_cases data s; repeat split; exit_auto.
Qed.

Lemma borrow_check_order_witness :
  let data := request [("userId", VInt 7); ("bookId", VList [VInt 2])] in
  (BorrowBookView_post data initial).1 = Ok user_not_found ∧
  (BorrowBookView_post data initial).1 ≠ Ok book_not_found.
Proof.
  apply (borrow_check_order
           (request [("userId", VInt 7); ("bookId", VList [VInt 2])]) initial).
  - discriminate.
  - split; reflexivity.
  - intros (k & _ & [u Hu]). simpl in Hu. by rewrite lookup_empty in Hu.
  - intros (k & Hk & _). discriminate.
Defined.

(** C1, as the specification states it, fails on a request whose ids are
    non-empty JSON arrays: both are present, neither exists, and the
    membership test [user_id not in users] raises [TypeError] instead of
    answering "User not found.". *)
Lemma borrow_order_unhashable_ids :
  let data := request [("userId", VList [VInt 1]); ("bookId", VList [VInt 2])] in
  truthy (userId data) = true ∧ truthy (bookId data) = true ∧
  ¬ key_of (userId data) (users initial) ∧
  ¬ key_of (bookId data) (books initial) ∧
  BorrowBookView_post data initial = (Raise TypeError, initial) ∧
  (BorrowBookView_post data initial).1 ≠ Ok user_not_found.
Proof.
  repeat split; try reflexivity.
  - by intros (k & Hk & _).
  - by intros (k & Hk & _).
  - discriminate.
Qed.

(** C3.  In every reachable state, a borrow request naming an existing user
    and an existing book whose [is_borrowed] flag is set is answered with
    "Book is already borrowed." and changes nothing, whoever the user is. *)
Theorem borrow_borrowed_book_conflicts ops data n user k book :
  int_value (userId data) = Some n → users (run ops) !! n = Some user →
  int_value (bookId data) = Some k → books (run ops) !! k = Some book →
  is_borrowed book = true →
  BorrowBookView_post data (run ops) = (Ok already_borrowed, run ops).
Proof.
  intros Hn Hu Hk Hb Hflag.
  pose proof (wf_run ops) as Hwf.
  assert (truthy (userId data) = true) as Tu.
  { apply (int_value_truthy _ n); [done|].
    apply (wf_users _ Hwf) in Hu. lia. }
  assert (truthy (bookId data) = true) as Tb.
  { apply (int_value_truthy _ k); [done|].
    apply (wf_books _ Hwf) in Hb. lia. }
  pose proof (int_value_hashable _ _ Hn).
  pose proof (int_value_hashable _ _ Hk).
  borrow_exit_cases data (run ops); exit_auto.
Qed.

Lemma borrow_borrowed_book_conflicts_witness :
  BorrowBookView_post (request [("userId", VInt 1); ("bookId", VInt 1)])
    (run (take 3 scenario))
  = (Ok already_borrowed, run (take 3 scenario)).
Proof.
  apply (borrow_borrowed_book_conflicts (take 3 scenario)
           (request [("userId", VInt 1); ("bookId", VInt 1)])
           1 {| u_id := 1; name := VStr "Alice" |}
           1 {| b_id := 1; title := VStr "1984"; author := VStr "Orwell";
                is_borrowed := true |}); reflexivity.
Defined.

Lemma append_assoc (a b c : string) : (a +:+ b) +:+ c = a +:+ b +:+ c.
Proof.
  induction a as [|x a IH]; [done|].
  change (String x ((a +:+ b) +:+ c) = String x (a +:+ b +:+ c)).
  by f_equal.
Qed.

(** C5.  When the four preconditions pass (both ids present, the user [n]
    exists, the book [k] exists and is not borrowed), the request answers
    200, sets the [is_borrowed] flag of book [k] and changes nothing else of
    it, records [borrowed_books[k]] as the request's [userId], leaves every
    other book, every other assignment, every user and both counters as
    they were, and the message contains the book's title and the user's
    name (as [str] renders them; a string renders as itself). *)
Theorem borrow_success_effect data s n user k book :
  truthy (userId data) = true → truthy (bookId data) = true →
  int_value (userId data) = Some n → users s !! n = Some user →
  int_value (bookId data) = Some k → books s !! k = Some book →
  is_borrowed book = false →
  ∃ parts s',
    BorrowBookView_post data s = (Ok (Resp 200 (BMessage parts)), s') ∧
    books s' !! k = Some {| b_id := b_id book; title := title book;
                            author := author book; is_borrowed := true |} ∧
    dict_get k (borrowed_books s') = Some (userId data) ∧
    (∀ k', k' ≠ k → books s' !! k' = books s !! k') ∧
    (∀ k', k' ≠ k →
       dict_get k' (borrowed_books s') = dict_get k' (borrowed_books s)) ∧
    users s' = users s ∧
    book_id_counter s' = book_id_counter s ∧
    user_id_counter s' = user_id_counter s ∧
    (∀ str, occurs_in (str (title book)) (format str parts) ∧
            occurs_in (str (name user)) (format str parts)) ∧
    (∀ str t u, (∀ x, str (VStr x) = x) →
       title book = VStr t → name user = VStr u →
       format str parts
       = "Book '" +:+ t +:+ "' borrowed by user '" +:+ u +:+ "'.").
Proof.
  intros Tu Tb Hn Hu Hk Hb Hflag.
  pose proof (int_value_hashable _ _ Hn).
  pose proof (int_value_hashable _ _ Hk).
  borrow_exit_cases data s; try by exit_auto.
  simplify_eq. do 2 eexists. split; [reflexivity|]. simpl.
  split; [by rewrite lookup_insert_eq|].
  split; [apply dict_get_set_eq|].
  split; [by intros k' Hne; rewrite lookup_insert_ne|].
  split; [by intros k' Hne; apply dict_get_set_ne|].
  do 3 (split; [done|]).
  split.
  - intros str. split.
    + by exists "Book '", ("' borrowed by user '" +:+ str (name user) +:+ "'.").
    + exists ("Book '" +:+ str (title book) +:+ "' borrowed by user '"), "'.".
      by rewrite !append_assoc.
  - intros str t u Hstr Ht Hu'. by rewrite Ht, Hu', !Hstr.
Qed.

Lemma borrow_success_effect_witness :
  ∃ parts s',
    BorrowBookView_post (request [("userId", VInt 1); ("bookId", VInt 1)])
      (run (take 2 scenario))
    = (Ok (Resp 200 (BMessage parts)), s') ∧
    format str_of_string parts = "Book '1984' borrowed by user 'Alice'.".
Proof.
  destruct (borrow_success_effect
              (request [("userId", VInt 1); ("bookId", VInt 1)])
              (run (take 2 scenario))
              1 {| u_id := 1; name := VStr "Alice" |}
              1 {| b_id := 1; title := VStr "1984"; author := VStr "Orwell";
                   is_borrowed := false |}
              eq_refl eq_refl eq_refl eq_refl eq_refl eq_refl eq_refl)
    as (parts & s' & Hrun & _ & _ & _ & _ & _ & _ & _ & _ & Htext).
  exists parts, s'. split; [exact Hrun|].
  apply (Htext str_of_string "1984" "Alice"%string); reflexivity.
Defined.

(** C10.  The presence check of [BorrowBookView.post] is a truthiness test:
    whenever [userId] or [bookId] is falsy the answer is "userId and bookId
    are required." and nothing changes.  The integer 0, the float 0.0,
    [False], the empty string, empty containers and an absent field are all
    falsy, so an id equal to 0 is never answered with a not-found error. *)
Theorem borrow_falsy_id_is_missing data s :
  (truthy (userId data) = false ∨ truthy (bookId data) = false →
   BorrowBookView_post data s = (Ok ids_required, s)) ∧
  (int_value (userId data) = Some 0 ∨ int_value (bookId data) = Some 0 →
   BorrowBookView_post data s = (Ok ids_required, s) ∧
   (BorrowBookView_post data s).1 ≠ Ok user_not_found ∧
   (BorrowBookView_post data s).1 ≠ Ok book_not_found) ∧
  (data !! "userId" = None ∨ data !! "bookId" = None →
   BorrowBookView_post data s = (Ok ids_required, s)) ∧
  truthy (VInt 0) = false ∧ truthy (VFloat (FWhole 0)) = false ∧
  truthy (VBool false) = false ∧ truthy (VStr "") = false ∧
  truthy VNone = false ∧ truthy (VList []) = false ∧ truthy (VDict []) = false.
Proof.
  assert (truthy (userId data) = false ∨ truthy (bookId data) = false →
          BorrowBookView_post data s = (Ok ids_required, s)) as Hfalsy.
  { intros Hf. borrow_exit_cases data s; exit_auto. }
  split; [exact Hfalsy|]. split; [|split; [|by repeat split]].
  - intros H0.
    assert (truthy (userId data) = false ∨ truthy (bookId data) = false) as Hf.
    { destruct H0 as [H0|H0]; [left|right]; by apply int_value_zero_falsy. }
    rewrite (Hfalsy Hf). by repeat split.
  - intros Hmiss. apply Hfalsy. unfold userId, bookId, data_get.
    destruct Hmiss as [->| ->]; [by left|by right].
Qed.

Lemma borrow_falsy_id_is_missing_witness :
  BorrowBookView_post (request [("userId", VInt 0); ("bookId", VInt 1)])
    (run (take 2 scenario))
  = (Ok ids_required, run (take 2 scenario)).
Proof.
  apply (proj1 (borrow_falsy_id_is_missing
                  (request [("userId", VInt 0); ("bookId", VInt 1)])
                  (run (take 2 scenario)))).
  left. reflexivity.
Defined.

(** * Registration *)


Lemma register_book_rejects data s :
  truthy (data_get data "title") = false ∨
  truthy (data_get data "author") = false →
  BookCreateView_post data s = (Ok title_author_required, s).
Proof.
  unfold BookCreateView_post. by intros [-> | ->]; rewrite ?orb_true_r.
Qed.

Lemma register_book_accepts data s :
  truthy (data_get data "title") = true →
  truthy (data_get data "author") = true →
  BookCreateView_post data s =
  let book := {| b_id := book_id_counter s; title := data_get data "title";
                 author := data_get data "author"; is_borrowed := false |} in
  (Ok (Resp 201 (BBook book)),
   {| books := <[book_id_counter s := book]> (books s); users := users s;
      borrowed_books := borrowed_books s;
      book_id_counter := book_id_counter s + 1;
      user_id_counter := user_id_counter s |}).
Proof. unfold BookCreateView_post. by intros -> ->. Qed.

Lemma truthy_string x : truthy (VStr x) = false ↔ x = "".
Proof. simpl. rewrite negb_false_iff. apply String.eqb_eq. Qed.

Lemma counter_fresh s : wf s → books s !! book_id_counter s = None.
Proof.
  intros Hwf. destruct (books s !! book_id_counter s) eqn:E; [|done].
  apply (wf_books _ Hwf) in E. lia.
Qed.

(** The falsy request values, one by one. *)
Lemma falsy_values v :
  truthy v = false ↔
  v = VNone ∨ v = VBool false ∨ v = VInt 0 ∨ v = VFloat (FWhole 0) ∨
  v = VStr "" ∨ v = VList [] ∨ v = VDict [].
Proof.
  split.
  - destruct v as [|[]|z|[z|]|x|[|? ?]|[|? ?]]; simpl; intros H;
      try discriminate; eauto 10.
    + apply negb_false_iff, Z.eqb_eq in H as ->. eauto.
    + apply negb_false_iff, Z.eqb_eq in H as ->. eauto 10.
    + apply negb_false_iff, String.eqb_eq in H as ->. eauto 10.
  - intros [->|[->|[->|[->|[->|[->| ->]]]]]]; reflexivity.
Qed.

(** C8, as the code has it.  [BookCreateView.post] answers "Title and
    author are required." and leaves the state alone exactly when [title]
    or [author] is falsy, that is absent or [None], [False], the number 0
    or 0.0, the empty string, or an empty array or object; for a field that
    is absent or a string this is exactly missing or empty.  Otherwise it
    answers 201 with a record carrying the current counter as id, the given
    title and author and [is_borrowed = False], stores that record under
    that id and advances the counter; in a reachable state the id is not
    yet in use. *)
Theorem register_book_spec data s :
  let title := data_get data "title" in
  let author := data_get data "author" in
  let book := {| b_id := book_id_counter s; title := title; author := author;
                 is_borrowed := false |} in
  (BookCreateView_post data s = (Ok title_author_required, s) ↔
   truthy title = false ∨ truthy author = false) ∧
  (truthy title = true → truthy author = true →
   ∃ s', BookCreateView_post data s = (Ok (Resp 201 (BBook book)), s') ∧
         books s' = <[book_id_counter s := book]> (books s) ∧
         books s' !! book_id_counter s = Some book ∧
         book_id_counter s' = book_id_counter s + 1 ∧
         users s' = users s ∧ borrowed_books s' = borrowed_books s ∧
         user_id_counter s' = user_id_counter s) ∧
  (data !! "title" = None → truthy title = false) ∧
  (data !! "author" = None → truthy author = false) ∧
  (∀ x, truthy (VStr x) = false ↔ x = "") ∧
  (∀ v, truthy v = false ↔
        v = VNone ∨ v = VBool false ∨ v = VInt 0 ∨ v = VFloat (FWhole 0) ∨
        v = VStr "" ∨ v = VList [] ∨ v = VDict []) ∧
  (reachable s → books s !! book_id_counter s = None).
Proof.
  simpl. split; [split|].
  - intros Hr.
    destruct (truthy (data_get data "title")) eqn:Tt; [|by left].
    destruct (truthy (data_get data "author")) eqn:Ta; [|by right].
    rewrite register_book_accepts in Hr by done. discriminate.
  - apply register_book_rejects.
  - split.
    { intros Tt Ta. eexists. split; [by apply register_book_accepts|].
      simpl. by rewrite lookup_insert_eq. }
    split; [unfold data_get; by intros ->|].
    split; [unfold data_get; by intros ->|].
    split; [apply truthy_string|].
    split; [apply falsy_values|].
    intros Hr. by apply counter_fresh, reachable_wf.
Qed.

(** C8, as the specification states it, fails when [title] is the number
    0: the field is present and is not empty, the author is a non-empty
    string, yet the request is rejected with "Title and author are
    required." and no record is created. *)
Lemma register_book_zero_title_rejected :
  let data := request [("title", VInt 0); ("author", VStr "Orwell")] in
  data !! "title" = Some (VInt 0) ∧
  data !! "author" = Some (VStr "Orwell") ∧
  BookCreateView_post data initial = (Ok title_author_required, initial) ∧
  books (BookCreateView_post data initial).2 = ∅.
Proof. repeat split. Qed.

Lemma register_book_spec_witness :
  ∃ s', BookCreateView_post
          (request [("title", VStr "1984"); ("author", VStr "Orwell")]) initial
        = (Ok (Resp 201 (BBook {| b_id := 1; title := VStr "1984";
                                  author := VStr "Orwell";
                                  is_borrowed := false |})), s') ∧
        book_id_counter s' = 2.
Proof.
  destruct (register_book_spec
              (request [("title", VStr "1984"); ("author", VStr "Orwell")])
              initial) as (_ & Hok & _).
  destruct (Hok eq_refl eq_refl) as (s' & Hpost & _ & _ & Hc & _).
  exists s'. split; [exact Hpost|exact Hc].
Defined.

(** * All-or-nothing *)



(** * Invariants of reachable states *)

(** C2.  In every state reached by a sequence of requests, an id is a key
    of [borrowed_books] exactly when it is the id of a book whose
    [is_borrowed] flag is set; each key occurs once, so a borrowed book has
    exactly one recorded borrower, and that borrower is an existing user. *)
Theorem borrowed_iff_flag ops k book :
  books (run ops) !! k = Some book →
  (k ∈ dict_keys (borrowed_books (run ops)) ↔ is_borrowed book = true) ∧
  (is_Some (dict_get k (borrowed_books (run ops))) ↔ is_borrowed book = true) ∧
  NoDup (dict_keys (borrowed_books (run ops))) ∧
  (∀ u1 u2, (k, u1) ∈ borrowed_books (run ops) →
            (k, u2) ∈ borrowed_books (run ops) → u1 = u2) ∧
  (∀ u, (k, u) ∈ borrowed_books (run ops) → key_of u (users (run ops))).
Proof.
  intros Hb. pose proof (wf_run ops) as Hwf.
  assert (k ∈ dict_keys (borrowed_books (run ops)) ↔ is_borrowed book = true)
    as Hiff.
  { rewrite (wf_borrowed _ Hwf). split.
    - intros (b & Hb' & Hflag). congruence.
    - eauto. }
  split; [exact Hiff|]. split; [|split; [apply Hwf|split]].
  - rewrite <- Hiff, elem_of_dict_keys. split.
    + intros [u Hu]. exists u. clear -Hu.
      induction (borrowed_books (run ops)) as [|[k' v'] d IH]; [done|].
      simpl in Hu. destruct (decide (k' = k)) as [->|Hne].
      * injection Hu as ->. apply elem_of_cons. by left.
      * apply elem_of_cons. right. by apply IH.
    + intros [u Hu]. exists u. apply dict_get_Some; [apply Hwf|done].
  - intros u1 u2 H1 H2.
    apply (dict_get_Some _ _ _ (wf_keys _ Hwf)) in H1, H2. congruence.
  - intros u. apply (wf_holders _ Hwf).
Qed.

Lemma borrowed_iff_flag_witness :
  1 ∈ dict_keys (borrowed_books (run scenario)) ↔ true = true.
Proof.
  apply (borrowed_iff_flag scenario 1
           {| b_id := 1; title := VStr "1984"; author := VStr "Orwell";
              is_borrowed := true |}).
  reflexivity.
Defined.

(** * The one-way lifecycle *)

Lemma lent_borrowed s k book uid :
  wf s → books s !! k = Some book → is_borrowed book = false →
  borrowed_books (lent k book uid s) = borrowed_books s ++ [(k, uid)].
Proof.
  intros Hwf Hb Hflag. simpl. apply dict_set_fresh.
  by eapply not_borrowed_fresh.
Qed.

Lemma step_one_way op s :
  wf s →
  borrowed_books s `prefix_of` borrowed_books (step op s).2 ∧
  ∀ k b, books s !! k = Some b → is_borrowed b = true →
         books (step op s).2 !! k = Some b.
Proof.
  intros Hwf. destruct op as [data|data|data|user_id]; simpl.
  - unfold BookCreateView_post. destruct (negb _ || negb _); simpl; [done|].
    split; [done|]. intros k b Hb _. rewrite lookup_insert_ne; [done|].
    intros <-. apply (wf_books _ Hwf) in Hb. lia.
  - unfold UserCreateView_post. by destruct (negb _).
  - destruct (borrow_exits data s); simpl; try done.
    split.
    + rewrite dict_set_fresh by (by eapply not_borrowed_fresh).
      by apply prefix_app_r.
    + intros k' b Hb Hflag. rewrite lookup_insert_ne; [done|].
      intros <-. congruence.
  - by rewrite list_borrowed_state.
Qed.

Lemma exec_one_way ops s :
  wf s →
  borrowed_books s `prefix_of` borrowed_books (exec ops s).2 ∧
  ∀ k b, books s !! k = Some b → is_borrowed b = true →
         books (exec ops s).2 !! k = Some b.
Proof.
  revert s. induction ops as [|op ops IH]; intros s Hwf; [done|].
  rewrite exec_cons. simpl.
  destruct (step_one_way op s Hwf) as [Hpre Hkeep].
  destruct (IH _ (wf_step op s Hwf)) as [Hpre' Hkeep'].
  split; [by etrans|]. intros k b Hb Hflag. apply Hkeep'; [|done]. by apply Hkeep.
Qed.

(** C9.  Along any sequence of requests, a book whose [is_borrowed] flag is
    set keeps it set (its record does not change any more), and
    [borrowed_books] only grows: the earlier dictionary is a prefix of the
    later one, so no entry is ever removed or altered. *)
Theorem lifecycle_one_way ops1 ops2 k b :
  books (run ops1) !! k = Some b → is_borrowed b = true →
  books (run (ops1 ++ ops2)) !! k = Some b ∧
  borrowed_books (run ops1) `prefix_of` borrowed_books (run (ops1 ++ ops2)) ∧
  (∀ k' u, (k', u) ∈ borrowed_books (run ops1) →
           (k', u) ∈ borrowed_books (run (ops1 ++ ops2))) ∧
  (∀ k', k' ∈ dict_keys (borrowed_books (run ops1)) →
         k' ∈ dict_keys (borrowed_books (run (ops1 ++ ops2)))).
Proof.
  intros Hb Hflag. rewrite run_app.
  destruct (exec_one_way ops2 (run ops1) (wf_run ops1)) as [Hpre Hkeep].
  split; [by apply Hkeep|]. split; [done|].
  destruct Hpre as [d ->]. split.
  - intros k' u H. apply elem_of_app. by left.
  - intros k' H. rewrite dict_keys_app. apply elem_of_app. by left.
Qed.

Lemma lifecycle_one_way_witness :
  books (run (take 3 scenario ++ drop 3 scenario)) !! 1
  = Some {| b_id := 1; title := VStr "1984"; author := VStr "Orwell";
            is_borrowed := true |}.
Proof.
  apply (lifecycle_one_way (take 3 scenario) (drop 3 scenario) 1
           {| b_id := 1; title := VStr "1984"; author := VStr "Orwell";
              is_borrowed := true |}); reflexivity.
Defined.

(** * Listing a user's books *)

Lemma user_borrowed_books_spec bs user_id items :
  (∀ k, k ∈ dict_keys items → ∃ b, bs !! k = Some b ∧ b_id b = k) →
  ∃ l, user_borrowed_books bs user_id items = Ok l ∧
       b_id <$> l = dict_keys (filter (held_by user_id) items) ∧
       (∀ book, book ∈ l ↔
          ∃ k uid, (k, uid) ∈ items ∧ py_eq_int uid user_id = true ∧
                   bs !! k = Some book).
Proof.
  induction items as [|[k uid] rest IH]; intros Hkeys.
  - exists []. repeat split.
    + by intros ?%elem_of_nil.
    + by intros (? & ? & ?%elem_of_nil & _).
  - destruct IH as (l & Hl & Hids & Hmem).
    { intros k' Hk'. apply Hkeys. unfold dict_keys. simpl.
      apply elem_of_cons. by right. }
    simpl. destruct (py_eq_int uid user_id) eqn:Heq.
    + destruct (Hkeys k) as (b & Hb & Hid).
      { unfold dict_keys. simpl. apply elem_of_cons. by left. }
      rewrite Hb, Hl. rewrite filter_cons_True by done.
      exists (b :: l). split; [done|]. split.
      * unfold dict_keys in *. rewrite !fmap_cons. simpl. by f_equal.
      * intros book. rewrite elem_of_cons, Hmem. split.
        -- intros [->|(k' & uid' & Hin & Hu & Hk')].
           ++ exists k, uid. split; [apply elem_of_cons; by left|done].
           ++ exists k', uid'. split; [apply elem_of_cons; by right|done].
        -- intros (k' & uid' & Hin & Hu & Hk').
           apply elem_of_cons in Hin as [[= -> ->]|Hin].
           ++ left. congruence.
           ++ right. eauto.
    + rewrite filter_cons_False by (unfold held_by; simpl; congruence).
      exists l. split; [done|]. split; [done|].
      intros book. rewrite Hmem. split.
      * intros (k' & uid' & Hin & Hu & Hk').
        exists k', uid'. split; [apply elem_of_cons; by right|done].
      * intros (k' & uid' & Hin & Hu & Hk').
        apply elem_of_cons in Hin as [[= -> ->]|Hin]; [congruence|eauto].
Qed.

Lemma NoDup_filter_keys (P : Z * value → Prop) `{∀ e, Decision (P e)} d :
  NoDup (dict_keys d) → NoDup (dict_keys (filter P d)).
Proof.
  unfold dict_keys. induction d as [|e d IH]; simpl; [done|].
  rewrite NoDup_cons. intros [Hnot Hnd]. rewrite filter_cons.
  destruct (decide (P e)); [|by apply IH].
  simpl. apply NoDup_cons. split; [|by apply IH].
  intros Hin. apply Hnot.
  apply list_elem_of_fmap in Hin as (e' & -> & Hin).
  apply list_elem_of_fmap. exists e'. split; [done|].
  by apply list_elem_of_filter in Hin as [_ ?].
Qed.

(** What the listing view returns in a well-formed state. *)
Lemma list_borrowed_ok s user_id :
  wf s → is_Some (users s !! user_id) →
  ∃ l, UserBorrowedBooksView_get user_id s = (Ok (Resp 200 (BBooks l)), s) ∧
       NoDup (b_id <$> l) ∧
       (∀ book, book ∈ l ↔
          ∃ k uid, (k, uid) ∈ borrowed_books s ∧
                   py_eq_int uid user_id = true ∧ books s !! k = Some book).
Proof.
  intros Hwf [u Hu]. unfold UserBorrowedBooksView_get. rewrite Hu.
  destruct (user_borrowed_books_spec (books s) user_id (borrowed_books s))
    as (l & -> & Hids & Hmem).
  { intros k Hk. apply (wf_borrowed _ Hwf) in Hk as (b & Hb & _).
    exists b. split; [done|]. by apply (wf_books _ Hwf). }
  exists l. split; [done|]. split; [|done].
  rewrite Hids. apply NoDup_filter_keys, Hwf.
Qed.

Lemma borrow_new_entry data s k uid :
  wf s → (k, uid) ∈ borrowed_books (BorrowBookView_post data s).2 →
  (k, uid) ∈ borrowed_books s ∨
  (userId data = uid ∧ int_value (bookId data) = Some k ∧
   failed (BorrowBookView_post data s).1 = false).
Proof.
  intros Hwf. destruct (borrow_exits data s); try by left.
  simpl. rewrite dict_set_fresh by (by eapply not_borrowed_fresh).
  rewrite elem_of_app, list_elem_of_singleton. intros [Hin|[= -> ->]].
  - by left.
  - by right.
Qed.

(** Every entry of [borrowed_books] was put there by a successful borrow
    request naming that book and that user. *)
Lemma borrowed_origin ops k uid :
  (k, uid) ∈ borrowed_books (run ops) →
  ∃ ops1 data ops2,
    ops = ops1 ++ BorrowBook data :: ops2 ∧
    userId data = uid ∧ int_value (bookId data) = Some k ∧
    failed (BorrowBookView_post data (run ops1)).1 = false.
Proof.
  induction ops as [|op ops IH] using rev_ind.
  - by intros ?%elem_of_nil.
  - rewrite run_snoc. intros Hin.
    assert ((k, uid) ∈ borrowed_books (run ops) →
            ∃ ops1 data ops2,
              ops ++ [op] = ops1 ++ BorrowBook data :: ops2 ∧
              userId data = uid ∧ int_value (bookId data) = Some k ∧
              failed (BorrowBookView_post data (run ops1)).1 = false) as Hold.
    { intros (ops1 & data & ops2 & -> & Hrest)%IH.
      exists ops1, data, (ops2 ++ [op]). split; [|done].
      by rewrite <- app_assoc. }
    destruct op as [data|data|data|user_id]; simpl in Hin.
    + apply Hold. revert Hin. unfold BookCreateView_post.
      by destruct (negb _ || negb _).
    + apply Hold. revert Hin. unfold UserCreateView_post.
      by destruct (negb _).
    + apply (borrow_new_entry _ _ _ _ (wf_run ops)) in Hin as [Hin|Hnew].
      * by apply Hold.
      * by exists ops, data, [].
    + apply Hold. by rewrite list_borrowed_state in Hin.
Qed.

(** C6.  [UserBorrowedBooksView.get] answers "User not found." exactly when
    [user_id] is not a key of [users], in any state whatsoever, and never
    changes the state.  In every reachable state, for an existing user it
    answers 200 with the records of exactly those books
    whose entry in [borrowed_books] is equal to [user_id], no book twice,
    hence the empty list when there is no such entry; every book listed was
    borrowed by that user in an earlier successful request.  Right after a
    successful borrow by user [n] of book [k], the listing for [n] contains
    the (now borrowed) record of book [k], once. *)
Theorem list_borrowed_spec ops user_id :
  let s := run ops in
  let r := (UserBorrowedBooksView_get user_id s).1 in
  (∀ s0, (UserBorrowedBooksView_get user_id s0).1 = Ok user_not_found ↔
         users s0 !! user_id = None) ∧
  (UserBorrowedBooksView_get user_id s).2 = s ∧
  (is_Some (users s !! user_id) →
   ∃ l, r = Ok (Resp 200 (BBooks l)) ∧
        NoDup (b_id <$> l) ∧
        (∀ book, book ∈ l ↔
           ∃ k uid, (k, uid) ∈ borrowed_books s ∧
                    py_eq_int uid user_id = true ∧ books s !! k = Some book) ∧
        ((∀ k uid, (k, uid) ∈ borrowed_books s →
                   py_eq_int uid user_id = false) → l = []) ∧
        (∀ book, book ∈ l →
           ∃ ops1 data ops2,
             ops = ops1 ++ BorrowBook data :: ops2 ∧
             py_eq_int (userId data) user_id = true ∧
             int_value (bookId data) = Some (b_id book) ∧
             failed (BorrowBookView_post data (run ops1)).1 = false)) ∧
  (∀ data, failed (BorrowBookView_post data s).1 = false →
     ∃ n k book l,
       int_value (userId data) = Some n ∧ int_value (bookId data) = Some k ∧
       books (BorrowBookView_post data s).2 !! k = Some book ∧
       is_borrowed book = true ∧
       (UserBorrowedBooksView_get n (BorrowBookView_post data s).2).1
       = Ok (Resp 200 (BBooks l)) ∧
       book ∈ l ∧ NoDup (b_id <$> l)).
Proof.
  simpl. pose proof (wf_run ops) as Hwf.
  split; [|split; [apply list_borrowed_state|split]].
  - intros s0. unfold UserBorrowedBooksView_get.
    destruct (users s0 !! user_id); [|done].
    by destruct (user_borrowed_books _ _ _).
  - intros Hu. destruct (list_borrowed_ok _ _ Hwf Hu) as (l & -> & Hnd & Hmem).
    exists l. repeat split; try done; try by apply Hmem.
    + intros Hnone. destruct l as [|b l]; [done|]. exfalso.
      destruct (proj1 (Hmem b)) as (k & uid & Hin & Heq & _).
      { apply elem_of_cons. by left. }
      apply Hnone in Hin. congruence.
    + intros book (k & uid & Hin & Heq & Hb)%Hmem.
      apply borrowed_origin in Hin as (ops1 & data & ops2 & -> & <- & Hk & Hok).
      exists ops1, data, ops2. repeat split; try done.
      apply (wf_books _ Hwf) in Hb as [-> _]. done.
  - intros data.
    pose proof (wf_borrow data _ Hwf) as Hwf'. revert Hwf'.
    destruct (borrow_exits data (run ops)); simpl; try done.
    intros Hwf' _.
    destruct (list_borrowed_ok (lent k book (userId data) (run ops)) n Hwf')
      as (l & Hl & Hnd & Hmem); [by eexists|].
    exists n, k, (mark_borrowed book), l.
    do 2 (split; [done|]). split; [by rewrite lookup_insert_eq|].
    split; [done|]. split; [by rewrite Hl|]. split; [|done].
    apply Hmem. exists k, (userId data). split.
    + rewrite lent_borrowed by done. apply elem_of_app. right.
      by apply list_elem_of_singleton.
    + split; [by apply py_eq_int_spec|]. simpl. by rewrite lookup_insert_eq.
Qed.

Lemma list_borrowed_spec_witness :
  ∃ l, (UserBorrowedBooksView_get 1 (run scenario)).1
       = Ok (Resp 200 (BBooks l)) ∧
       NoDup (b_id <$> l).
Proof.
  destruct (list_borrowed_spec scenario 1) as (_ & _ & Hlist & _).
  destruct Hlist as (l & Hl & Hnd & _).
  - exists {| u_id := 1; name := VStr "Alice" |}. reflexivity.
  - exists l. split; [exact Hl|exact Hnd].
Defined.

(** * Allocation of ids *)

Lemma register_user_accepts data s :
  truthy (data_get data "name") = true →
  UserCreateView_post data s =
  let user := {| u_id := user_id_counter s; name := data_get data "name" |} in
  (Ok (Resp 201 (BUser user)),
   {| books := books s; users := <[user_id_counter s := user]> (users s);
      borrowed_books := borrowed_books s;
      book_id_counter := book_id_counter s;
      user_id_counter := user_id_counter s + 1 |}).
Proof. unfold UserCreateView_post. by intros ->. Qed.

(** A request either issues no book id and leaves the book counter alone,
    or issues the counter's value and advances it by one. *)
Lemma step_issued_book op s :
  (issued_book_id (step op s).1 = None ∧
   book_id_counter (step op s).2 = book_id_counter s) ∨
  (issued_book_id (step op s).1 = Some (book_id_counter s) ∧
   book_id_counter (step op s).2 = book_id_counter s + 1).
Proof.
  destruct op as [data|data|data|user_id]; simpl.
  - unfold BookCreateView_post. destruct (negb _ || negb _); [by left|by right].
  - unfold UserCreateView_post. destruct (negb _); by left.
  - destruct (borrow_exits data s); by left.
  - rewrite list_borrowed_state. left. split; [|done].
    unfold UserBorrowedBooksView_get. destruct (users s !! user_id); [|done].
    by destruct (user_borrowed_books _ _ _).
Qed.

Lemma step_issued_user op s :
  (issued_user_id (step op s).1 = None ∧
   user_id_counter (step op s).2 = user_id_counter s) ∨
  (issued_user_id (step op s).1 = Some (user_id_counter s) ∧
   user_id_counter (step op s).2 = user_id_counter s + 1).
Proof.
  destruct op as [data|data|data|user_id]; simpl.
  - unfold BookCreateView_post. destruct (negb _ || negb _); by left.
  - unfold UserCreateView_post. destruct (negb _); [by left|by right].
  - destruct (borrow_exits data s); by left.
  - rewrite list_borrowed_state. left. split; [|done].
    unfold UserBorrowedBooksView_get. destruct (users s !! user_id); [|done].
    by destruct (user_borrowed_books _ _ _).
Qed.

Lemma seqZ_succ m (n : nat) :
  seqZ m (Z.of_nat (S n)) = m :: seqZ (m + 1) (Z.of_nat n).
Proof. rewrite seqZ_cons by lia. f_equal. f_equal; lia. Qed.

(** Both namespaces follow the same discipline, so the argument is made
    once, for any counter that each request either leaves alone or hands
    out and advances. *)
Section issued.
Variable issued_of : result Response → option Z.
Variable counter : State → Z.
Hypothesis step_issued : ∀ op s,
  (issued_of (step op s).1 = None ∧ counter (step op s).2 = counter s) ∨
  (issued_of (step op s).1 = Some (counter s) ∧
   counter (step op s).2 = counter s + 1).

Lemma exec_issued ops s :
  let ids := omap issued_of (exec ops s).1 in
  ids = seqZ (counter s) (Z.of_nat (length ids)) ∧
  counter (exec ops s).2 = counter s + Z.of_nat (length ids).
Proof.
  revert s. induction ops as [|op ops IH]; intros s.
  - simpl. split; [done|lia].
  - rewrite exec_cons. cbn zeta. cbn [fst snd omap list_omap].
    specialize (IH (step op s).2). cbn zeta in IH. destruct IH as [IH1 IH2].
    destruct (step_issued op s) as [[-> Hc]|[-> Hc]].
    + rewrite Hc in IH1, IH2. done.
    + rewrite Hc in IH1, IH2. rewrite length_cons, seqZ_succ.
      split; [by f_equal|lia].
Qed.
End issued.

Lemma seqZ_increasing m n (i j : nat) a b :
  seqZ m n !! i = Some a → seqZ m n !! j = Some b → (i < j)%nat → a < b.
Proof. rewrite !lookup_seqZ. lia. Qed.

(** C7.  Along any sequence of requests the book ids handed out are
    1, 2, 3, ... in this order, and so are the user ids: each list is
    duplicate-free and strictly increasing, and each counter is one more
    than the number of ids handed out so far.  A registration with valid
    input returns a record whose id is larger than, hence different from,
    every id issued before in its namespace.  The two namespaces do not
    interact: registering a user leaves the book counter alone, and
    registering a book leaves the user counter alone. *)
Theorem id_allocation ops :
  let rs := (exec ops initial).1 in
  let bids := issued_book_ids rs in
  let uids := issued_user_ids rs in
  bids = seqZ 1 (Z.of_nat (length bids)) ∧
  uids = seqZ 1 (Z.of_nat (length uids)) ∧
  NoDup bids ∧ NoDup uids ∧
  (∀ (i j : nat) a b,
     bids !! i = Some a → bids !! j = Some b → (i < j)%nat → a < b) ∧
  (∀ (i j : nat) a b,
     uids !! i = Some a → uids !! j = Some b → (i < j)%nat → a < b) ∧
  book_id_counter (run ops) = 1 + Z.of_nat (length bids) ∧
  user_id_counter (run ops) = 1 + Z.of_nat (length uids) ∧
  (∀ data,
     truthy (data_get data "title") = true →
     truthy (data_get data "author") = true →
     ∃ book, (BookCreateView_post data (run ops)).1
             = Ok (Resp 201 (BBook book)) ∧
             (b_id book ∉ bids) ∧ (∀ i, i ∈ bids → i < b_id book)) ∧
  (∀ data,
     truthy (data_get data "name") = true →
     ∃ user, (UserCreateView_post data (run ops)).1
             = Ok (Resp 201 (BUser user)) ∧
             (u_id user ∉ uids) ∧ (∀ i, i ∈ uids → i < u_id user)) ∧
  (∀ data, book_id_counter (UserCreateView_post data (run ops)).2
           = book_id_counter (run ops)) ∧
  (∀ data, user_id_counter (BookCreateView_post data (run ops)).2
           = user_id_counter (run ops)).
Proof.
  cbn zeta.
  destruct (exec_issued issued_book_id book_id_counter step_issued_book
              ops initial) as [Hb Hbc].
  destruct (exec_issued issued_user_id user_id_counter step_issued_user
              ops initial) as [Hu Huc].
  cbn zeta in Hb, Hbc, Hu, Huc. simpl in Hb, Hbc, Hu, Huc.
  fold (issued_book_ids (exec ops initial).1) in Hb, Hbc.
  fold (issued_user_ids (exec ops initial).1) in Hu, Huc.
  fold (run ops) in Hbc, Huc.
  set (bids := issued_book_ids (exec ops initial).1) in *.
  set (uids := issued_user_ids (exec ops initial).1) in *.
  assert (∀ i, i ∈ bids → i < book_id_counter (run ops)) as Hblt.
  { intros i. rewrite Hb, elem_of_seqZ, Hbc. lia. }
  assert (∀ i, i ∈ uids → i < user_id_counter (run ops)) as Hult.
  { intros i. rewrite Hu, elem_of_seqZ, Huc. lia. }
  split; [done|]. split; [done|].
  split; [rewrite Hb; apply NoDup_seqZ|].
  split; [rewrite Hu; apply NoDup_seqZ|].
  split; [rewrite Hb; apply seqZ_increasing|].
  split; [rewrite Hu; apply seqZ_increasing|].
  split; [done|]. split; [done|]. repeat split.
  - intros data Tt Ta. rewrite register_book_accepts by done.
    eexists. split; [reflexivity|]. simpl. split; [|done].
    intros Hin%Hblt. lia.
  - intros data Tn. rewrite register_user_accepts by done.
    eexists. split; [reflexivity|]. simpl. split; [|done].
    intros Hin%Hult. lia.
  - intros data. unfold UserCreateView_post. by destruct (negb _).
  - intros data. unfold BookCreateView_post. by destruct (negb _ || negb _).
Qed.

Lemma id_allocation_witness :
  ∃ book, (BookCreateView_post
             (request [("title", VStr "Emma"); ("author", VStr "Austen")])
             (run scenario)).1
          = Ok (Resp 201 (BBook book)) ∧
          b_id book ∉ issued_book_ids (exec scenario initial).1.
Proof.
  destruct (id_allocation scenario)
    as (_ & _ & _ & _ & _ & _ & _ & _ & Hbook & _).
  destruct (Hbook (request [("title", VStr "Emma"); ("author", VStr "Austen")])
              eq_refl eq_refl) as (book & Hpost & Hfresh & _).
  exists book. split; [exact Hpost|exact Hfresh].
Defined.

(** The scenario of the specification: ids 1 and 1, a confirmation naming
    "1984" and "Alice", a conflict on the second borrow, and a listing with
    the one borrowed record. *)
Example scenario_outcomes :
  (exec scenario initial).1 =
  [ Ok (Resp 201 (BBook {| b_id := 1; title := VStr "1984";
                           author := VStr "Orwell"; is_borrowed := false |}));
    Ok (Resp 201 (BUser {| u_id := 1; name := VStr "Alice" |}));
    Ok (confirmation {| b_id := 1; title := VStr "1984";
                        author := VStr "Orwell"; is_borrowed := true |}
                     {| u_id := 1; name := VStr "Alice" |});
    Ok already_borrowed;
    Ok (Resp 200 (BBooks [ {| b_id := 1; title := VStr "1984";
                              author := VStr "Orwell";
                              is_borrowed := true |} ])) ].
Proof. reflexivity. Qed.


(** * Further properties of the views *)

(** ** Registering a user *)

Lemma register_user_rejects data s :
  truthy (data_get data "name") = false →
  UserCreateView_post data s = (Ok name_required, s).
Proof. unfold UserCreateView_post. by intros ->. Qed.

Lemma user_counter_fresh s : wf s → users s !! user_id_counter s = None.
Proof.
  intros Hwf. destruct (users s !! user_id_counter s) eqn:E; [|done].
  apply (wf_users _ Hwf) in E. lia.
Qed.

(** X1.  [UserCreateView.post] answers "Name is required." and leaves the
    state alone exactly when [name] is falsy (an absent field reads as
    [None]).  Otherwise it answers 201 with a record carrying the current
    user counter as id and the given name, stores it under that id and
    advances the user counter; books, assignments and the book counter are
    untouched, and in a reachable state the id is not yet in use. *)
Theorem register_user_spec data s :
  let name := data_get data "name" in
  let user := {| u_id := user_id_counter s; name := name |} in
  (UserCreateView_post data s = (Ok name_required, s) ↔ truthy name = false) ∧
  (truthy name = true →
   ∃ s', UserCreateView_post data s = (Ok (Resp 201 (BUser user)), s') ∧
         users s' = <[user_id_counter s := user]> (users s) ∧
         users s' !! user_id_counter s = Some user ∧
         user_id_counter s' = user_id_counter s + 1 ∧
         books s' = books s ∧ borrowed_books s' = borrowed_books s ∧
         book_id_counter s' = book_id_counter s) ∧
  (data !! "name" = None → truthy name = false) ∧
  (reachable s → users s !! user_id_counter s = None).
Proof.
  simpl. repeat split.
  - intros Hr. destruct (truthy (data_get data "name")) eqn:Tn; [|done].
    rewrite register_user_accepts in Hr by done. discriminate.
  - apply register_user_rejects.
  - intros Tn. eexists. split; [by apply register_user_accepts|].
    simpl. by rewrite lookup_insert_eq.
  - unfold data_get. by intros ->.
  - intros Hr. by apply user_counter_fresh, reachable_wf.
Qed.

Lemma register_user_spec_witness :
  ∃ s', UserCreateView_post (request [("name", VStr "Bob")]) (run scenario)
        = (Ok (Resp 201 (BUser {| u_id := 2; name := VStr "Bob" |})), s') ∧
        user_id_counter s' = 3.
Proof.
  destruct (register_user_spec (request [("name", VStr "Bob")]) (run scenario))
    as (_ & Hok & _).
  destruct (Hok eq_refl) as (s' & Hpost & _ & _ & Hc & _).
  exists s'. split; [exact Hpost|exact Hc].
Defined.

(** ** Exceptions *)

Lemma list_borrowed_never_raises s user_id :
  wf s → ∃ resp, UserBorrowedBooksView_get user_id s = (Ok resp, s).
Proof.
  intros Hwf. destruct (users s !! user_id) as [u|] eqn:Hu.
  - destruct (list_borrowed_ok s user_id Hwf) as (l & Hl & _); [by eexists|].
    by eexists.
  - unfold UserBorrowedBooksView_get. rewrite Hu. by eexists.
Qed.

Lemma request_data_cases body :
  (∃ data, request_data body = Ok data) ∨
  request_data body = Raise AttributeError.
Proof. destruct body; simpl; eauto. Qed.

Lemma handle_cases req s :
  (∃ op, handle req s = step op s) ∨
  (∃ body, request_data body = Raise AttributeError ∧
           handle req s = (Raise AttributeError, s) ∧
           (req = PostBook body ∨ req = PostUser body ∨ req = PostBorrow body)).
Proof.
  destruct req as [body|body|body|user_id]; simpl.
  - destruct (request_data_cases body) as [[data Hd]|Hd]; rewrite Hd.
    + left. by exists (RegisterBook data).
    + right. exists body. eauto.
  - destruct (request_data_cases body) as [[data Hd]|Hd]; rewrite Hd.
    + left. by exists (RegisterUser data).
    + right. exists body. eauto.
  - destruct (request_data_cases body) as [[data Hd]|Hd]; rewrite Hd.
    + left. by exists (BorrowBook data).
    + right. exists body. eauto 10.
  - left. by exists (ListBorrowedBooks user_id).
Qed.

(** Requests with a body that is not an object change nothing, so they
    reach no state that sequences of well-formed requests do not reach. *)
Lemma serve_all_run reqs : ∃ ops, serve_all reqs = run ops.
Proof.
  unfold serve_all. induction reqs as [|req reqs IH] using rev_ind.
  - by exists [].
  - rewrite foldl_app. simpl. destruct IH as [ops ->].
    destruct (handle_cases req (run ops))
      as [[op ->]|(body & _ & -> & _)].
    + exists (ops ++ [op]). by rewrite run_snoc.
    + by exists ops.
Qed.

(** X2.  Serving any sequence of requests, whatever their bodies, a request
    can end in an exception in two ways only.  [AttributeError]: it is a
    [post] whose body is not a JSON object, so [request.data.get] fails at
    the first statement; this happens for every such body, in every state,
    and changes nothing.  [TypeError]: it is a borrow with an object body in
    which both ids are present and either [userId] is unhashable, or the
    user exists and [bookId] is unhashable; a borrow raises [TypeError]
    exactly then, in any state.  In particular the listing never raises,
    and [KeyError] (a borrowed id without a book) never occurs. *)
Theorem exceptions_characterised reqs req data s :
  (∀ e, (handle req (serve_all reqs)).1 = Raise e →
     (e = AttributeError ∧
      ∃ body, request_data body = Raise AttributeError ∧
              (req = PostBook body ∨ req = PostUser body ∨
               req = PostBorrow body)) ∨
     (e = TypeError ∧
      ∃ body d, req = PostBorrow body ∧ request_data body = Ok d ∧
                (BorrowBookView_post d (serve_all reqs)).1 = Raise TypeError)) ∧
  (∀ body, request_data body = Raise AttributeError →
     handle (PostBook body) s = (Raise AttributeError, s) ∧
     handle (PostUser body) s = (Raise AttributeError, s) ∧
     handle (PostBorrow body) s = (Raise AttributeError, s)) ∧
  (∀ body, (∃ d, body = VDict d) ∨ request_data body = Raise AttributeError) ∧
  (∀ e, (BorrowBookView_post data s).1 = Raise e → e = TypeError) ∧
  ((BorrowBookView_post data s).1 = Raise TypeError ↔
   truthy (userId data) = true ∧ truthy (bookId data) = true ∧
   (hashable (userId data) = false ∨
    (key_of (userId data) (users s) ∧ hashable (bookId data) = false))).
Proof.
  split; [|split; [|split; [|split]]].
  - intros e. destruct (serve_all_run reqs) as [ops ->].
    destruct req as [body|body|body|user_id]; simpl.
    + destruct (request_data_cases body) as [[d Hd]|Hd]; rewrite Hd.
      * unfold BookCreateView_post. by destruct (negb _ || negb _).
      * intros [= <-]. left. split; [done|]. exists body. eauto.
    + destruct (request_data_cases body) as [[d Hd]|Hd]; rewrite Hd.
      * unfold UserCreateView_post. by destruct (negb _).
      * intros [= <-]. left. split; [done|]. exists body. eauto.
    + destruct (request_data_cases body) as [[d Hd]|Hd]; rewrite Hd.
      * intros He. right.
        assert (e = TypeError) as ->.
        { revert He. destruct (borrow_exits d (run ops)); simpl;
            intros ?; by simplify_eq. }
        split; [done|]. by exists body, d.
      * intros [= <-]. left. split; [done|]. exists body. eauto.
    + destruct (list_borrowed_never_raises (run ops) user_id (wf_run ops))
        as [resp ->]. done.
  - intros body Hb. simpl. by rewrite Hb.
  - intros body. destruct body; simpl; eauto.
  - intros e. destruct (borrow_exits data s); simpl; intros ?; by simplify_eq.
  - borrow_exit_cases data s; split; exit_auto.
    all: exfalso;
      match goal with
      | H : int_value ?v = Some _, H' : hashable ?v = false |- _ =>
          apply int_value_hashable in H; congruence
      end.
Qed.

Lemma exceptions_characterised_witness :
  handle (PostBook (VList [VStr "1984"; VStr "Orwell"])) (run scenario)
  = (Raise AttributeError, run scenario) ∧
  (BorrowBookView_post
     (request [("userId", VInt 1); ("bookId", VList [VInt 1])])
     (run scenario)).1 = Raise TypeError.
Proof.
  destruct (exceptions_characterised
              [] (GetBorrowedBooks 0)
              (request [("userId", VInt 1); ("bookId", VList [VInt 1])])
              (run scenario)) as (_ & Hattr & _ & _ & Htype).
  split.
  - apply Hattr. reflexivity.
  - apply Htype. split; [reflexivity|]. split; [reflexivity|]. right.
    split; [|reflexivity]. exists 1. split; [reflexivity|].
    exists {| u_id := 1; name := VStr "Alice" |}. reflexivity.
Defined.

(** ** The stored records *)

Lemma step_dense op s :
  (∀ k, 1 ≤ k < book_id_counter s → is_Some (books s !! k)) ∧
  (∀ k, 1 ≤ k < user_id_counter s → is_Some (users s !! k)) →
  (∀ k, 1 ≤ k < book_id_counter (step op s).2 →
        is_Some (books (step op s).2 !! k)) ∧
  (∀ k, 1 ≤ k < user_id_counter (step op s).2 →
        is_Some (users (step op s).2 !! k)).
Proof.
  intros [Hb Hu]. destruct op as [data|data|data|user_id]; simpl.
  - unfold BookCreateView_post. destruct (negb _ || negb _); simpl; [done|].
    split; [|done]. intros k Hk. rewrite lookup_insert. case_decide; [done|].
    apply Hb. lia.
  - unfold UserCreateView_post. destruct (negb _); simpl; [done|].
    split; [done|]. intros k Hk. rewrite lookup_insert. case_decide; [done|].
    apply Hu. lia.
  - destruct (borrow_exits data s); simpl; try done.
    split; [|done]. intros k' Hk'. rewrite lookup_insert.
    case_decide; [done|]. by apply Hb.
  - by rewrite list_borrowed_state.
Qed.

Lemma run_dense ops :
  (∀ k, 1 ≤ k < book_id_counter (run ops) → is_Some (books (run ops) !! k)) ∧
  (∀ k, 1 ≤ k < user_id_counter (run ops) → is_Some (users (run ops) !! k)).
Proof.
  induction ops as [|op ops IH] using rev_ind.
  - split; intros k Hk; simpl in Hk; lia.
  - rewrite run_snoc. by apply step_dense.
Qed.

(** X3.  In every reachable state the stored books are exactly the ids from
    1 up to (not including) the book counter, the stored users exactly the
    ids from 1 up to the user counter, and every record carries as [id] the
    key it is stored under: no id is skipped, none is reused, and id 0 is
    never a user or a book. *)
Theorem stored_ids ops k :
  (is_Some (books (run ops) !! k) ↔ 1 ≤ k < book_id_counter (run ops)) ∧
  (is_Some (users (run ops) !! k) ↔ 1 ≤ k < user_id_counter (run ops)) ∧
  (∀ b, books (run ops) !! k = Some b → b_id b = k) ∧
  (∀ u, users (run ops) !! k = Some u → u_id u = k) ∧
  dom (books (run ops))
  = list_to_set (seqZ 1 (book_id_counter (run ops) - 1)) ∧
  dom (users (run ops))
  = list_to_set (seqZ 1 (user_id_counter (run ops) - 1)).
Proof.
  pose proof (wf_run ops) as Hwf. destruct (run_dense ops) as [Hb Hu].
  assert (∀ k, is_Some (books (run ops) !! k)
               ↔ 1 ≤ k < book_id_counter (run ops)) as Hbk.
  { intros k'. split; [|apply Hb]. intros [b Hk]. by apply (wf_books _ Hwf) in Hk as [_ ?]. }
  assert (∀ k, is_Some (users (run ops) !! k)
               ↔ 1 ≤ k < user_id_counter (run ops)) as Huk.
  { intros k'. split; [|apply Hu]. intros [u Hk]. by apply (wf_users _ Hwf) in Hk as [_ ?]. }
  split; [done|]. split; [done|].
  split; [by intros b Hk; apply (wf_books _ Hwf) in Hk as [? _]|].
  split; [by intros u Hk; apply (wf_users _ Hwf) in Hk as [? _]|].
  split; apply set_eq; intros x;
    rewrite elem_of_dom, elem_of_list_to_set, elem_of_seqZ.
  - rewrite Hbk. lia.
  - rewrite Huk. lia.
Qed.

Lemma step_keeps_records op s :
  wf s →
  (∀ k b, books s !! k = Some b →
     ∃ b', books (step op s).2 !! k = Some b' ∧ b_id b' = b_id b ∧
           title b' = title b ∧ author b' = author b ∧
           (is_borrowed b = true → is_borrowed b' = true)) ∧
  (∀ n u, users s !! n = Some u → users (step op s).2 !! n = Some u) ∧
  book_id_counter s ≤ book_id_counter (step op s).2 ∧
  user_id_counter s ≤ user_id_counter (step op s).2.
Proof.
  intros Hwf. destruct op as [data|data|data|user_id]; simpl.
  - unfold BookCreateView_post. destruct (negb _ || negb _); simpl.
    + repeat split; try done. intros k b Hb. by exists b.
    + repeat split; try done; try lia. intros k b Hb. exists b.
      split; [|done]. rewrite lookup_insert_ne; [done|].
      intros <-. apply (wf_books _ Hwf) in Hb. lia.
  - unfold UserCreateView_post. destruct (negb _); simpl.
    + repeat split; try done. intros k b Hb. by exists b.
    + repeat split; try done; try lia.
      * intros k b Hb. by exists b.
      * intros n u Hu. rewrite lookup_insert_ne; [done|].
        intros <-. apply (wf_users _ Hwf) in Hu. lia.
  - destruct (borrow_exits data s); simpl;
      try (repeat split; try done; intros k0 b0 Hb0; by exists b0).
    repeat split; try done. intros k' b' Hb'.
    rewrite lookup_insert. case_decide as E.
    + subst k'. exists (mark_borrowed book). split; [done|].
      assert (b' = book) as -> by congruence. done.
    + by exists b'.
  - rewrite list_borrowed_state. repeat split; try done.
    intros k b Hb. by exists b.
Qed.

Lemma exec_keeps_records ops s :
  wf s →
  (∀ k b, books s !! k = Some b →
     ∃ b', books (exec ops s).2 !! k = Some b' ∧ b_id b' = b_id b ∧
           title b' = title b ∧ author b' = author b ∧
           (is_borrowed b = true → is_borrowed b' = true)) ∧
  (∀ n u, users s !! n = Some u → users (exec ops s).2 !! n = Some u) ∧
  book_id_counter s ≤ book_id_counter (exec ops s).2 ∧
  user_id_counter s ≤ user_id_counter (exec ops s).2.
Proof.
  revert s. induction ops as [|op ops IH]; intros s Hwf.
  - simpl. repeat split; try done. intros k b Hb. by exists b.
  - rewrite exec_cons. simpl.
    destruct (step_keeps_records op s Hwf) as (Hb & Hu & Hbc & Huc).
    destruct (IH _ (wf_step op s Hwf)) as (Hb' & Hu' & Hbc' & Huc').
    repeat split; try lia.
    + intros k b (b1 & Hk1 & ? & ? & ? & ?)%Hb.
      apply Hb' in Hk1 as (b2 & Hk2 & ? & ? & ? & ?).
      exists b2. repeat split; try congruence. eauto.
    + intros n u H. by apply Hu', Hu.
Qed.

(** X4.  Nothing is ever deleted or rewritten: along any further requests a
    stored book stays stored under its id with the same [id], [title] and
    [author] (only [is_borrowed] may change, and only from false to true), a
    stored user stays exactly as registered, and neither counter ever goes
    down. *)
Theorem records_persist ops1 ops2 :
  (∀ k b, books (run ops1) !! k = Some b →
     ∃ b', books (run (ops1 ++ ops2)) !! k = Some b' ∧ b_id b' = b_id b ∧
           title b' = title b ∧ author b' = author b ∧
           (is_borrowed b = true → is_borrowed b' = true)) ∧
  (∀ n u, users (run ops1) !! n = Some u →
          users (run (ops1 ++ ops2)) !! n = Some u) ∧
  book_id_counter (run ops1) ≤ book_id_counter (run (ops1 ++ ops2)) ∧
  user_id_counter (run ops1) ≤ user_id_counter (run (ops1 ++ ops2)).
Proof. rewrite run_app. apply exec_keeps_records, wf_run. Qed.

Lemma records_persist_witness :
  users (run (take 2 scenario ++ drop 2 scenario)) !! 1
  = Some {| u_id := 1; name := VStr "Alice" |}.
Proof.
  apply (proj1 (proj2 (records_persist (take 2 scenario) (drop 2 scenario)))).
  reflexivity.
Defined.

Lemma stored_ids_witness : is_Some (books (run scenario) !! 1).
Proof.
  apply (proj2 (proj1 (stored_ids scenario 1))). change (1 ≤ 1 < 2). lia.
Defined.

(** ** Borrowing, over time *)

Lemma run_borrow_then ops data ops2 :
  run (ops ++ BorrowBook data :: ops2)
  = (exec ops2 (BorrowBookView_post data (run ops)).2).2.
Proof. rewrite run_app, exec_cons. reflexivity. Qed.

Lemma borrowed_book_refused data s k book :
  int_value (bookId data) = Some k → books s !! k = Some book →
  is_borrowed book = true →
  failed (BorrowBookView_post data s).1 = true ∧
  (BorrowBookView_post data s).2 = s.
Proof.
  intros Hk Hb Hflag. destruct (borrow_exits data s); simpl; try done.
  congruence.
Qed.

(** X5.  Once a borrow of book [k] has succeeded, no later borrow request
    for [k] succeeds, whatever happens in between and whoever asks: it
    fails and changes nothing, and when the requesting user exists the
    answer is "Book is already borrowed.". *)
Theorem borrowed_book_never_lent_again ops data ops2 data2 k :
  failed (BorrowBookView_post data (run ops)).1 = false →
  int_value (bookId data) = Some k → int_value (bookId data2) = Some k →
  let s2 := run (ops ++ BorrowBook data :: ops2) in
  failed (BorrowBookView_post data2 s2).1 = true ∧
  (BorrowBookView_post data2 s2).2 = s2 ∧
  (key_of (userId data2) (users s2) →
   (BorrowBookView_post data2 s2).1 = Ok already_borrowed).
Proof.
  intros Hok Hk Hk2. cbn zeta.
  assert (∃ b, books (run (ops ++ BorrowBook data :: ops2)) !! k = Some b ∧
               is_borrowed b = true) as (b & Hb & Hflag).
  { rewrite run_borrow_then.
    pose proof (wf_borrow data _ (wf_run ops)) as Hwf'. revert Hok Hwf'.
    destruct (borrow_exits data (run ops)); simpl; try done.
    intros _ Hwf'. exists (mark_borrowed book).
    split; [|done]. apply (exec_one_way ops2 _ Hwf'); [|done].
    simpl. assert (k0 = k) as -> by congruence. by rewrite lookup_insert_eq. }
  destruct (borrowed_book_refused data2 _ k b Hk2 Hb Hflag) as [Hfail Hsame].
  split; [done|]. split; [done|].
  intros (n & Hn & [u Hu]).
  pose proof (wf_run (ops ++ BorrowBook data :: ops2)) as Hwf.
  assert (truthy (userId data2) = true) as Tu.
  { apply (int_value_truthy _ n); [done|]. apply (wf_users _ Hwf) in Hu. lia. }
  assert (truthy (bookId data2) = true) as Tb.
  { apply (int_value_truthy _ k); [done|]. apply (wf_books _ Hwf) in Hb. lia. }
  pose proof (int_value_hashable _ _ Hn).
  pose proof (int_value_hashable _ _ Hk2).
  borrow_exit_cases data2 (run (ops ++ BorrowBook data :: ops2)); exit_auto.
Qed.

Lemma borrowed_book_never_lent_again_witness :
  failed (BorrowBookView_post
            (request [("userId", VInt 1); ("bookId", VFloat (FWhole 1))])
            (run (take 2 scenario
                  ++ BorrowBook (request [("userId", VInt 1); ("bookId", VInt 1)])
                  :: drop 3 scenario))).1 = true.
Proof.
  apply (borrowed_book_never_lent_again (take 2 scenario)
           (request [("userId", VInt 1); ("bookId", VInt 1)])
           (drop 3 scenario)
           (request [("userId", VInt 1); ("bookId", VFloat (FWhole 1))]) 1);
    reflexivity.
Defined.

Lemma step_borrow_count op s :
  wf s →
  length (borrowed_books (step op s).2)
  = (length (borrowed_books s)
     + if is_confirmation (step op s).1 then 1 else 0)%nat.
Proof.
  intros Hwf. destruct op as [data|data|data|user_id]; simpl.
  - unfold BookCreateView_post. destruct (negb _ || negb _); simpl; lia.
  - unfold UserCreateView_post. destruct (negb _); simpl; lia.
  - destruct (borrow_exits data s); simpl; try lia.
    rewrite dict_set_fresh by (by eapply not_borrowed_fresh).
    by rewrite length_app.
  - destruct (list_borrowed_never_raises s user_id Hwf) as [resp Hr].
    rewrite Hr. simpl. revert Hr. unfold UserBorrowedBooksView_get.
    destruct (users s !! user_id).
    + destruct (user_borrowed_books _ _ _); intros [= <-]; simpl; lia.
    + intros [= <-]. simpl. lia.
Qed.

Lemma exec_borrow_count ops s :
  wf s →
  length (borrowed_books (exec ops s).2)
  = (length (borrowed_books s)
     + length (filter (λ r, is_confirmation r) (exec ops s).1))%nat.
Proof.
  revert s. induction ops as [|op ops IH]; intros s Hwf.
  - simpl. lia.
  - rewrite exec_cons. cbn [fst snd].
    rewrite (IH _ (wf_step op s Hwf)), (step_borrow_count op s Hwf).
    rewrite filter_cons. destruct (is_confirmation (step op s).1); simpl; lia.
Qed.

(** X6.  The number of entries of [borrowed_books] is the number of borrow
    confirmations answered so far, and it never exceeds the number of books
    registered so far: every confirmation corresponds to a distinct book. *)
Theorem borrow_count ops :
  length (borrowed_books (run ops))
  = length (filter (λ r, is_confirmation r) (exec ops initial).1) ∧
  (length (filter (λ r, is_confirmation r) (exec ops initial).1)
   ≤ length (issued_book_ids (exec ops initial).1))%nat.
Proof.
  pose proof (exec_borrow_count ops initial wf_initial) as Hcount.
  simpl in Hcount. fold (run ops) in Hcount. split; [done|].
  rewrite <- Hcount.
  destruct (exec_issued issued_book_id book_id_counter step_issued_book
              ops initial) as [_ Hc].
  cbn zeta in Hc. simpl in Hc.
  fold (issued_book_ids (exec ops initial).1) in Hc. fold (run ops) in Hc.
  pose proof (wf_run ops) as Hwf.
  assert (dict_keys (borrowed_books (run ops))
          ⊆+ seqZ 1 (Z.of_nat (length (issued_book_ids (exec ops initial).1))))
    as Hsub.
  { apply NoDup_submseteq; [apply Hwf|]. intros k Hk.
    apply (wf_borrowed _ Hwf) in Hk as (b & Hb & _).
    apply (wf_books _ Hwf) in Hb. apply elem_of_seqZ. lia. }
  apply submseteq_length in Hsub.
  unfold dict_keys in Hsub. rewrite length_fmap, length_seqZ in Hsub. lia.
Qed.

Lemma borrow_count_witness :
  length (borrowed_books (run scenario)) = 1%nat.
Proof. exact (proj1 (borrow_count scenario)). Defined.

(** ** Listings *)

Lemma listing_inv s user_id l :
  wf s →
  (UserBorrowedBooksView_get user_id s).1 = Ok (Resp 200 (BBooks l)) →
  is_Some (users s !! user_id) ∧
  user_borrowed_books (books s) user_id (borrowed_books s) = Ok l ∧
  ∀ book, book ∈ l ↔
    ∃ k uid, (k, uid) ∈ borrowed_books s ∧
             py_eq_int uid user_id = true ∧ books s !! k = Some book.
Proof.
  intros Hwf Hl.
  destruct (users s !! user_id) as [u|] eqn:Hu.
  - destruct (list_borrowed_ok s user_id Hwf) as (l' & Hl' & _ & Hmem);
      [by eexists|].
    rewrite Hl' in Hl. simpl in Hl. injection Hl as <-.
    split; [by eexists|]. split; [|done].
    revert Hl'. unfold UserBorrowedBooksView_get. rewrite Hu.
    destruct (user_borrowed_books _ _ _); [|done]. by intros [= ->].
  - revert Hl. unfold UserBorrowedBooksView_get. by rewrite Hu.
Qed.

(** X7.  In a reachable state the listings of different users never share a
    book: if a record with the same id shows up in the listing of [u1] and
    in the listing of [u2], then [u1 = u2] and it is the same record.  Every
    listed record is the stored one and has [is_borrowed] set. *)
Theorem listings_disjoint ops u1 u2 l1 l2 b1 b2 :
  (UserBorrowedBooksView_get u1 (run ops)).1 = Ok (Resp 200 (BBooks l1)) →
  (UserBorrowedBooksView_get u2 (run ops)).1 = Ok (Resp 200 (BBooks l2)) →
  b1 ∈ l1 → b2 ∈ l2 → b_id b1 = b_id b2 →
  u1 = u2 ∧ b1 = b2 ∧ is_borrowed b1 = true ∧
  books (run ops) !! b_id b1 = Some b1.
Proof.
  intros H1 H2 Hin1 Hin2 Hid. pose proof (wf_run ops) as Hwf.
  apply (listing_inv _ _ _ Hwf) in H1 as (_ & _ & Hm1).
  apply (listing_inv _ _ _ Hwf) in H2 as (_ & _ & Hm2).
  apply Hm1 in Hin1 as (k1 & uid1 & He1 & Hq1 & Hb1).
  apply Hm2 in Hin2 as (k2 & uid2 & He2 & Hq2 & Hb2).
  pose proof (proj1 (wf_books _ Hwf _ _ Hb1)) as Hk1.
  pose proof (proj1 (wf_books _ Hwf _ _ Hb2)) as Hk2.
  assert (k1 = k2) as <- by congruence.
  assert (b1 = b2) as <- by congruence.
  apply (dict_get_Some _ _ _ (wf_keys _ Hwf)) in He1, He2.
  assert (uid1 = uid2) as <- by congruence.
  apply py_eq_int_spec in Hq1, Hq2.
  split; [congruence|]. split; [done|]. split; [|by rewrite Hk1].
  assert (k1 ∈ dict_keys (borrowed_books (run ops))) as Hkey.
  { apply elem_of_dict_keys. exists uid1. clear -He1.
    induction (borrowed_books (run ops)) as [|[k' v'] d IH]; [done|].
    simpl in He1. destruct (decide (k' = k1)) as [->|Hne].
    - injection He1 as ->. apply elem_of_cons. by left.
    - apply elem_of_cons. right. by apply IH. }
  apply (wf_borrowed _ Hwf) in Hkey as (b & Hb & Hflag). congruence.
Qed.

Lemma listings_disjoint_witness :
  (1 : Z) = 1 ∧
  {| b_id := 1; title := VStr "1984"; author := VStr "Orwell";
     is_borrowed := true |}
  = {| b_id := 1; title := VStr "1984"; author := VStr "Orwell";
       is_borrowed := true |} ∧
  true = true ∧
  books (run scenario) !! 1
  = Some {| b_id := 1; title := VStr "1984"; author := VStr "Orwell";
            is_borrowed := true |}.
Proof.
  apply (listings_disjoint scenario 1 1
           [ {| b_id := 1; title := VStr "1984"; author := VStr "Orwell";
                is_borrowed := true |} ]
           [ {| b_id := 1; title := VStr "1984"; author := VStr "Orwell";
                is_borrowed := true |} ]
           {| b_id := 1; title := VStr "1984"; author := VStr "Orwell";
              is_borrowed := true |}
           {| b_id := 1; title := VStr "1984"; author := VStr "Orwell";
              is_borrowed := true |});
    try reflexivity; apply elem_of_cons; by left.
Defined.

(** X8.  In a reachable state every book whose [is_borrowed] flag is set
    appears in the listing of an existing user, the one its entry in
    [borrowed_books] is equal to. *)
Theorem borrowed_book_is_listed ops k b :
  books (run ops) !! k = Some b → is_borrowed b = true →
  ∃ n uid l,
    dict_get k (borrowed_books (run ops)) = Some uid ∧
    int_value uid = Some n ∧ is_Some (users (run ops) !! n) ∧
    (UserBorrowedBooksView_get n (run ops)).1 = Ok (Resp 200 (BBooks l)) ∧
    b ∈ l.
Proof.
  intros Hb Hflag. pose proof (wf_run ops) as Hwf.
  assert (k ∈ dict_keys (borrowed_books (run ops))) as Hkey.
  { apply (wf_borrowed _ Hwf). eauto. }
  apply elem_of_dict_keys in Hkey as [uid Hin].
  destruct (wf_holders _ Hwf _ _ Hin) as (n & Hn & Hu).
  destruct (list_borrowed_ok _ n Hwf Hu) as (l & Hl & _ & Hmem).
  exists n, uid, l. split; [by apply dict_get_Some; [apply Hwf|]|].
  split; [done|]. split; [done|]. split; [by rewrite Hl|].
  apply Hmem. exists k, uid. split; [done|]. split; [|done].
  by apply py_eq_int_spec.
Qed.

Lemma borrowed_book_is_listed_witness :
  ∃ n uid l,
    dict_get 1 (borrowed_books (run scenario)) = Some uid ∧
    int_value uid = Some n ∧ is_Some (users (run scenario) !! n) ∧
    (UserBorrowedBooksView_get n (run scenario)).1
    = Ok (Resp 200 (BBooks l)) ∧
    {| b_id := 1; title := VStr "1984"; author := VStr "Orwell";
       is_borrowed := true |} ∈ l.
Proof.
  apply (borrowed_book_is_listed scenario 1
           {| b_id := 1; title := VStr "1984"; author := VStr "Orwell";
              is_borrowed := true |}); reflexivity.
Defined.

Lemma user_borrowed_books_app bs user_id d1 d2 l1 :
  user_borrowed_books bs user_id d1 = Ok l1 →
  user_borrowed_books bs user_id (d1 ++ d2)
  = match user_borrowed_books bs user_id d2 with
    | Ok l2 => Ok (l1 ++ l2)
    | Raise e => Raise e
    end.
Proof.
  revert l1. induction d1 as [|[k uid] d1 IH]; intros l1; simpl.
  - intros [= <-]. by destruct (user_borrowed_books bs user_id d2).
  - destruct (py_eq_int uid user_id); [|by apply IH].
    destruct (bs !! k) as [b|]; [|done].
    destruct (user_borrowed_books bs user_id d1) as [l|e] eqn:E; [|done].
    intros [= <-]. rewrite (IH l eq_refl).
    by destruct (user_borrowed_books bs user_id d2).
Qed.

Lemma user_borrowed_books_ext bs bs' user_id d :
  (∀ k, k ∈ dict_keys d → bs !! k = bs' !! k) →
  user_borrowed_books bs user_id d = user_borrowed_books bs' user_id d.
Proof.
  unfold dict_keys. induction d as [|[k uid] d IH]; intros Hext; [done|].
  simpl. rewrite <- (Hext k) by (simpl; apply elem_of_cons; by left).
  rewrite IH; [done|]. intros k' Hk'. apply Hext. simpl.
  apply elem_of_cons. by right.
Qed.

(** X9.  A user's listing only grows, and at its end: if the listing
    answers [l1] in a reachable state, then after any further requests it
    answers a list that starts with [l1], the same records in the same
    order, followed by the books borrowed since, in the order borrowed. *)
Theorem listing_grows ops1 ops2 user_id l1 :
  (UserBorrowedBooksView_get user_id (run ops1)).1
  = Ok (Resp 200 (BBooks l1)) →
  ∃ l2, (UserBorrowedBooksView_get user_id (run (ops1 ++ ops2))).1
        = Ok (Resp 200 (BBooks l2)) ∧
        l1 `prefix_of` l2.
Proof.
  intros H1. pose proof (wf_run ops1) as Hwf1.
  pose proof (wf_run (ops1 ++ ops2)) as Hwf2.
  apply (listing_inv _ _ _ Hwf1) in H1 as ([u Hu] & Hl1 & _).
  destruct (exec_keeps_records ops2 _ Hwf1) as (_ & Husers & _).
  destruct (exec_one_way ops2 _ Hwf1) as [[d Hd] Hkeep].
  rewrite <- run_app in Husers, Hd, Hkeep.
  apply Husers in Hu.
  destruct (list_borrowed_ok _ user_id Hwf2) as (l2 & Hl2 & _); [by eexists|].
  exists l2. split; [by rewrite Hl2|].
  assert (user_borrowed_books (books (run (ops1 ++ ops2))) user_id
            (borrowed_books (run (ops1 ++ ops2))) = Ok l2) as Hubb.
  { revert Hl2. unfold UserBorrowedBooksView_get. rewrite Hu.
    destruct (user_borrowed_books (books (run (ops1 ++ ops2))) user_id
                (borrowed_books (run (ops1 ++ ops2)))); [|done].
    intros Heq. injection Heq as Heq. by rewrite Heq. }
  rewrite Hd in Hubb.
  rewrite (user_borrowed_books_app _ _ _ _ l1) in Hubb.
  - destruct (user_borrowed_books _ _ d) as [l'|]; [|done].
    injection Hubb as <-. by exists l'.
  - rewrite <- Hl1. symmetry. apply user_borrowed_books_ext.
    intros k (b & Hb & Hflag)%(wf_borrowed _ Hwf1).
    rewrite Hb. symmetry. by apply Hkeep.
Qed.

Lemma listing_grows_witness :
  ∃ l2, (UserBorrowedBooksView_get 1 (run (take 3 scenario ++ drop 3 scenario))).1
        = Ok (Resp 200 (BBooks l2)) ∧
        [ {| b_id := 1; title := VStr "1984"; author := VStr "Orwell";
             is_borrowed := true |} ] `prefix_of` l2.
Proof.
  apply (listing_grows (take 3 scenario) (drop 3 scenario) 1
           [ {| b_id := 1; title := VStr "1984"; author := VStr "Orwell";
                is_borrowed := true |} ]).
  reflexivity.
Defined.

(** ** Ids are compared by value *)

Lemma int_value_truthy_eqb v n :
  int_value v = Some n → truthy v = negb (n =? 0).
Proof.
  intros Hv. destruct (decide (n = 0)) as [->|Hne].
  - by rewrite (int_value_zero_falsy _ Hv).
  - rewrite (int_value_truthy _ _ Hv Hne). symmetry.
    by apply negb_true_iff, Z.eqb_neq.
Qed.

Lemma py_lookup_int {A} v (d : gmap Z A) n :
  int_value v = Some n → py_lookup v d = Ok (pair n <$> d !! n).
Proof.
  intros Hv. unfold py_lookup. rewrite (int_value_hashable _ _ Hv), Hv.
  by destruct (d !! n).
Qed.

Lemma dict_keys_set {A} k (v v' : A) d :
  dict_keys (dict_set k v d) = dict_keys (dict_set k v' d).
Proof.
  unfold dict_keys. induction d as [|[k0 v0] d IH]; simpl; [done|].
  destruct (decide (k0 = k)); rewrite !fmap_cons; by f_equal.
Qed.

(** X10.  [BorrowBookView.post] compares ids by value, not by type: two
    requests whose [userId]s are equal to the same integer and whose
    [bookId]s are equal to the same integer (say [1], [1.0] and [true]) get
    the same answer and leave the same books, users, counters and borrowed
    keys behind. *)
Theorem borrow_ids_by_value data1 data2 s n k :
  int_value (userId data1) = Some n → int_value (userId data2) = Some n →
  int_value (bookId data1) = Some k → int_value (bookId data2) = Some k →
  let out1 := BorrowBookView_post data1 s in
  let out2 := BorrowBookView_post data2 s in
  out1.1 = out2.1 ∧ books out1.2 = books out2.2 ∧ users out1.2 = users out2.2 ∧
  dict_keys (borrowed_books out1.2) = dict_keys (borrowed_books out2.2) ∧
  book_id_counter out1.2 = book_id_counter out2.2 ∧
  user_id_counter out1.2 = user_id_counter out2.2.
Proof.
  intros Hu1 Hu2 Hb1 Hb2. cbn zeta. unfold BorrowBookView_post.
  fold (userId data1) (bookId data1) (userId data2) (bookId data2).
  rewrite (int_value_truthy_eqb _ _ Hu1), (int_value_truthy_eqb _ _ Hu2),
    (int_value_truthy_eqb _ _ Hb1), (int_value_truthy_eqb _ _ Hb2).
  destruct (negb (negb (n =? 0)) || negb (negb (k =? 0))); [done|].
  rewrite (py_lookup_int _ _ _ Hu1), (py_lookup_int _ _ _ Hu2),
    (py_lookup_int _ _ _ Hb1), (py_lookup_int _ _ _ Hb2).
  destruct (users s !! n) as [user|]; simpl; [|done].
  destruct (books s !! k) as [book|]; simpl; [|done].
  destruct (is_borrowed book); simpl; [done|].
  repeat split. apply dict_keys_set.
Qed.

Lemma borrow_ids_by_value_witness :
  (BorrowBookView_post
     (request [("userId", VBool true); ("bookId", VFloat (FWhole 1))])
     (run (take 2 scenario))).1
  = (BorrowBookView_post
       (request [("userId", VInt 1); ("bookId", VInt 1)])
       (run (take 2 scenario))).1.
Proof.
  apply (borrow_ids_by_value
           (request [("userId", VBool true); ("bookId", VFloat (FWhole 1))])
           (request [("userId", VInt 1); ("bookId", VInt 1)])
           (run (take 2 scenario)) 1 1); reflexivity.
Defined.

(** X11.  An id that is present and hashable but equal to no integer (a
    non-empty string such as ["1"], as form-encoded bodies deliver, or a
    float with a fractional part) never names anything: as [userId] it is
    answered "User not found." in every state, and as [bookId], once the
    user is found, "Book not found.". *)
Theorem borrow_non_integer_id data s :
  (truthy (userId data) = true → truthy (bookId data) = true →
   hashable (userId data) = true → int_value (userId data) = None →
   BorrowBookView_post data s = (Ok user_not_found, s)) ∧
  (truthy (userId data) = true → truthy (bookId data) = true →
   key_of (userId data) (users s) →
   hashable (bookId data) = true → int_value (bookId data) = None →
   BorrowBookView_post data s = (Ok book_not_found, s)) ∧
  (∀ x, x ≠ "" → truthy (VStr x) = true ∧ hashable (VStr x) = true ∧
                 int_value (VStr x) = None).
Proof.
  split; [|split].
  - intros Tu Tb Hh Hnone. borrow_exit_cases data s; exit_auto.
  - intros Tu Tb (n & Hn & [u Hu]) Hh Hnone.
    pose proof (int_value_hashable _ _ Hn).
    borrow_exit_cases data s; exit_auto.
  - intros x Hx. repeat split. simpl. apply negb_true_iff.
    by apply String.eqb_neq.
Qed.

Lemma borrow_non_integer_id_witness :
  BorrowBookView_post (request [("userId", VStr "1"); ("bookId", VStr "1")])
    (run scenario)
  = (Ok user_not_found, run scenario).
Proof.
  apply (proj1 (borrow_non_integer_id
                  (request [("userId", VStr "1"); ("bookId", VStr "1")])
                  (run scenario))); reflexivity.
Defined.

(** ** The answers a client can get *)

(** X12.  Whatever the state, each view answers from a fixed catalogue: a
    book registration answers 201 with a book or "Title and author are
    required."; a user registration 201 with a user or "Name is required.";
    a borrow 200 with a message or one of its four errors; a listing 200
    with a list of books or "User not found.".  So a response is a 4xx
    exactly when its body is an error, and no view ever answers 5xx. *)
Theorem response_catalogue op s resp :
  (step op s).1 = Ok resp →
  match op with
  | RegisterBook _ =>
      (status resp = 201 ∧ ∃ b, content resp = BBook b) ∨
      resp = title_author_required
  | RegisterUser _ =>
      (status resp = 201 ∧ ∃ u, content resp = BUser u) ∨
      resp = name_required
  | BorrowBook _ =>
      (status resp = 200 ∧ ∃ parts, content resp = BMessage parts) ∨
      resp = ids_required ∨ resp = user_not_found ∨
      resp = book_not_found ∨ resp = already_borrowed
  | ListBorrowedBooks _ =>
      (status resp = 200 ∧ ∃ l, content resp = BBooks l) ∨
      resp = user_not_found
  end.
Proof.
  destruct op as [data|data|data|user_id]; simpl.
  - unfold BookCreateView_post.
    destruct (negb _ || negb _); intros [= <-]; [by right|left]. eauto.
  - unfold UserCreateView_post.
    destruct (negb _); intros [= <-]; [by right|left]. eauto.
  - destruct (borrow_exits data s); simpl; intros [= <-]; eauto 10.
  - unfold UserBorrowedBooksView_get. destruct (users s !! user_id).
    + destruct (user_borrowed_books _ _ _); intros [= <-]. left. eauto.
    + intros [= <-]. by right.
Qed.

Lemma response_catalogue_witness :
  (status already_borrowed = 200 ∧
   ∃ parts, content already_borrowed = BMessage parts) ∨
  already_borrowed = ids_required ∨ already_borrowed = user_not_found ∨
  already_borrowed = book_not_found ∨ already_borrowed = already_borrowed.
Proof.
  apply (response_catalogue
           (BorrowBook (request [("userId", VInt 1); ("bookId", VInt 1)]))
           (run scenario) already_borrowed).
  reflexivity.
Defined.

(** ** How the operations compose *)

(** X13.  A book is available as soon as it is registered: right after a
    successful registration from a reachable state, a borrow request naming
    the new id and an existing user is confirmed, with the new title and the
    user's name in the message. *)
Theorem fresh_book_is_available ops bdata data n user :
  truthy (data_get bdata "title") = true →
  truthy (data_get bdata "author") = true →
  int_value (userId data) = Some n → users (run ops) !! n = Some user →
  int_value (bookId data) = Some (book_id_counter (run ops)) →
  (BorrowBookView_post data (BookCreateView_post bdata (run ops)).2).1
  = Ok (Resp 200 (BMessage [FText "Book '"; FValue (data_get bdata "title");
                            FText "' borrowed by user '"; FValue (name user);
                            FText "'."])).
Proof.
  intros Tt Ta Hn Hu Hk. pose proof (wf_run ops) as Hwf.
  rewrite register_book_accepts by done. cbn zeta. cbn [snd].
  set (s1 := {| books := _ |}).
  assert (truthy (userId data) = true) as Tu.
  { apply (int_value_truthy _ n); [done|]. apply (wf_users _ Hwf) in Hu. lia. }
  assert (truthy (bookId data) = true) as Tb.
  { apply (int_value_truthy _ _ Hk). destruct (wf_counters _ Hwf). lia. }
  pose proof (int_value_hashable _ _ Hn).
  pose proof (int_value_hashable _ _ Hk).
  assert (users s1 !! n = Some user) as Hu1 by done.
  assert (books s1 !! book_id_counter (run ops)
          = Some {| b_id := book_id_counter (run ops);
                    title := data_get bdata "title";
                    author := data_get bdata "author";
                    is_borrowed := false |}) as Hb1.
  { subst s1. simpl. by rewrite lookup_insert_eq. }
  clearbody s1.
  borrow_exit_cases data s1; exit_auto.
Qed.

Lemma fresh_book_is_available_witness :
  (BorrowBookView_post
     (request [("userId", VInt 1); ("bookId", VInt 2)])
     (BookCreateView_post
        (request [("title", VStr "Emma"); ("author", VStr "Austen")])
        (run scenario)).2).1
  = Ok (Resp 200 (BMessage [FText "Book '"; FValue (VStr "Emma");
                            FText "' borrowed by user '";
                            FValue (VStr "Alice"); FText "'."])).
Proof.
  apply (fresh_book_is_available scenario
           (request [("title", VStr "Emma"); ("author", VStr "Austen")])
           (request [("userId", VInt 1); ("bookId", VInt 2)])
           1 {| u_id := 1; name := VStr "Alice" |}); reflexivity.
Defined.

(** X14.  A newly registered user holds nothing: right after a successful
    user registration from a reachable state, the listing for the new id
    answers 200 with the empty list. *)
Theorem new_user_holds_nothing ops data :
  truthy (data_get data "name") = true →
  UserBorrowedBooksView_get (user_id_counter (run ops))
    (UserCreateView_post data (run ops)).2
  = (Ok (Resp 200 (BBooks [])), (UserCreateView_post data (run ops)).2).
Proof.
  intros Tn. pose proof (wf_run ops) as Hwf.
  pose proof (wf_register_user data _ Hwf) as Hwf1.
  destruct (list_borrowed_ok _ (user_id_counter (run ops)) Hwf1)
    as (l & -> & _ & Hmem).
  { rewrite register_user_accepts by done. simpl.
    rewrite lookup_insert_eq. by eexists. }
  destruct l as [|b l]; [done|]. exfalso.
  destruct (proj1 (Hmem b)) as (k & uid & Hin & Heq & _).
  { apply elem_of_cons. by left. }
  rewrite register_user_accepts in Hin by done. simpl in Hin.
  destruct (wf_holders _ Hwf _ _ Hin) as (n & Hn & [u Hu]).
  apply py_eq_int_spec in Heq. apply (wf_users _ Hwf) in Hu.
  assert (n = user_id_counter (run ops)) by congruence. lia.
Qed.

Lemma new_user_holds_nothing_witness :
  (UserBorrowedBooksView_get 2
     (UserCreateView_post (request [("name", VStr "Bob")]) (run scenario)).2).1
  = Ok (Resp 200 (BBooks [])).
Proof.
  exact (f_equal fst (new_user_holds_nothing scenario
                        (request [("name", VStr "Bob")]) eq_refl)).
Defined.

(** X15.  Registration does not look for duplicates: submitting the same
    valid title and author twice in a row creates two records with
    consecutive ids and the same title and author, both stored. *)
Theorem register_book_twice data s :
  truthy (data_get data "title") = true →
  truthy (data_get data "author") = true →
  let out1 := BookCreateView_post data s in
  let out2 := BookCreateView_post data out1.2 in
  ∃ b1 b2,
    out1.1 = Ok (Resp 201 (BBook b1)) ∧ out2.1 = Ok (Resp 201 (BBook b2)) ∧
    b_id b2 = b_id b1 + 1 ∧ title b2 = title b1 ∧ author b2 = author b1 ∧
    books out2.2 !! b_id b1 = Some b1 ∧ books out2.2 !! b_id b2 = Some b2.
Proof.
  intros Tt Ta. cbn zeta. rewrite !register_book_accepts by done.
  cbn zeta. simpl. do 2 eexists. repeat split.
  - rewrite lookup_insert_ne by (simpl; lia). by rewrite lookup_insert_eq.
  - by rewrite lookup_insert_eq.
Qed.

Lemma register_book_twice_witness :
  ∃ b1 b2,
    (BookCreateView_post
       (request [("title", VStr "1984"); ("author", VStr "Orwell")])
       (run scenario)).1 = Ok (Resp 201 (BBook b1)) ∧
    b_id b2 = b_id b1 + 1 ∧ title b2 = title b1.
Proof.
  destruct (register_book_twice
              (request [("title", VStr "1984"); ("author", VStr "Orwell")])
              (run scenario) eq_refl eq_refl)
    as (b1 & b2 & H1 & _ & Hid & Ht & _).
  exists b1, b2. split; [exact H1|]. split; [exact Hid|exact Ht].
Defined.

(** X16.  In a reachable state, whether a borrow with integer-valued ids
    succeeds can be read off the counters and the assignment dictionary
    alone: it succeeds exactly when the user id lies between 1 and the user
    counter (exclusive), the book id between 1 and the book counter
    (exclusive), and the book id is not yet a key of [borrowed_books]. *)
Theorem borrow_succeeds_iff ops data n k :
  int_value (userId data) = Some n → int_value (bookId data) = Some k →
  failed (BorrowBookView_post data (run ops)).1 = false ↔
  1 ≤ n < user_id_counter (run ops) ∧ 1 ≤ k < book_id_counter (run ops) ∧
  k ∉ dict_keys (borrowed_books (run ops)).
Proof.
  intros Hn Hk. pose proof (wf_run ops) as Hwf.
  destruct (run_dense ops) as [Hdb Hdu].
  pose proof (int_value_hashable _ _ Hn).
  pose proof (int_value_hashable _ _ Hk).
  split.
  - destruct (borrow_exits data (run ops)); simpl; try done.
    intros _. simplify_eq. split; [by eapply (wf_users _ Hwf)|].
    split; [by eapply (wf_books _ Hwf)|]. by eapply not_borrowed_fresh.
  - intros (Hnr & Hkr & Hfree).
    destruct (Hdu n Hnr) as [user Hu]. destruct (Hdb k Hkr) as [book Hb].
    assert (is_borrowed book = false) as Hflag.
    { destruct (is_borrowed book) eqn:E; [|done]. destruct Hfree.
      apply (wf_borrowed _ Hwf). eauto. }
    assert (truthy (userId data) = true) as Tu
      by (apply (int_value_truthy _ n); [done|lia]).
    assert (truthy (bookId data) = true) as Tb
      by (apply (int_value_truthy _ k); [done|lia]).
    borrow_exit_cases data (run ops); exit_auto.
Qed.

Lemma borrow_succeeds_iff_witness :
  failed (BorrowBookView_post
            (request [("userId", VInt 1); ("bookId", VInt 1)])
            (run (take 2 scenario))).1 = false.
Proof.
  apply (borrow_succeeds_iff (take 2 scenario)
           (request [("userId", VInt 1); ("bookId", VInt 1)]) 1 1);
    [reflexivity|reflexivity|].
  split; [change (1 ≤ 1 < 2); lia|]. split; [change (1 ≤ 1 < 2); lia|].
  change (1 ∉ @nil Z). by intros ?%elem_of_nil.
Defined.

Lemma listing_after_register_book data s user_id :
  wf s →
  (UserBorrowedBooksView_get user_id (BookCreateView_post data s).2).1
  = (UserBorrowedBooksView_get user_id s).1.
Proof.
  intros Hwf. unfold BookCreateView_post.
  destruct (negb _ || negb _); [done|]. simpl.
  unfold UserBorrowedBooksView_get. simpl.
  rewrite (user_borrowed_books_ext _ (books s)).
  - destruct (users s !! user_id); [|done].
    by destruct (user_borrowed_books _ _ _).
  - intros k (b & Hb & _)%(wf_borrowed _ Hwf).
    apply lookup_insert_ne. intros <-. apply (wf_books _ Hwf) in Hb. lia.
Qed.

Lemma listing_after_register_user data s user_id :
  wf s → is_Some (users s !! user_id) →
  (UserBorrowedBooksView_get user_id (UserCreateView_post data s).2).1
  = (UserBorrowedBooksView_get user_id s).1.
Proof.
  intros Hwf [u Hu]. unfold UserCreateView_post.
  destruct (negb _); [done|]. simpl.
  unfold UserBorrowedBooksView_get. simpl.
  rewrite lookup_insert_ne, Hu.
  - by destruct (user_borrowed_books _ _ _).
  - intros <-. apply (wf_users _ Hwf) in Hu. lia.
Qed.

(** X17.  Registrations do not disturb listings: from a reachable state,
    registering a book leaves the answer of every listing as it was, and
    registering a user leaves the listing of every existing user as it
    was. *)
Theorem registrations_keep_listings ops data user_id :
  (UserBorrowedBooksView_get user_id
     (BookCreateView_post data (run ops)).2).1
  = (UserBorrowedBooksView_get user_id (run ops)).1 ∧
  (is_Some (users (run ops) !! user_id) →
   (UserBorrowedBooksView_get user_id
      (UserCreateView_post data (run ops)).2).1
   = (UserBorrowedBooksView_get user_id (run ops)).1).
Proof.
  split.
  - apply listing_after_register_book, wf_run.
  - apply listing_after_register_user, wf_run.
Qed.

Lemma registrations_keep_listings_witness :
  (UserBorrowedBooksView_get 1
     (UserCreateView_post (request [("name", VStr "Bob")]) (run scenario)).2).1
  = (UserBorrowedBooksView_get 1 (run scenario)).1.
Proof.
  apply (proj2 (registrations_keep_listings scenario
                  (request [("name", VStr "Bob")]) 1)).
  exists {| u_id := 1; name := VStr "Alice" |}. reflexivity.
Defined.

(** X18.  A successful borrow changes exactly one listing, and only at its
    end: from a reachable state, after user [n] has borrowed book [k], the
    listing of [n] is the old one followed by the record of [k] with
    [is_borrowed] set, and the listing of every other user answers as
    before. *)
Theorem borrow_extends_one_listing ops data n k book l user_id :
  failed (BorrowBookView_post data (run ops)).1 = false →
  int_value (userId data) = Some n → int_value (bookId data) = Some k →
  books (run ops) !! k = Some book →
  (UserBorrowedBooksView_get n (run ops)).1 = Ok (Resp 200 (BBooks l)) →
  let s' := (BorrowBookView_post data (run ops)).2 in
  (UserBorrowedBooksView_get n s').1
  = Ok (Resp 200 (BBooks (l ++ [mark_borrowed book]))) ∧
  (user_id ≠ n →
   (UserBorrowedBooksView_get user_id s').1
   = (UserBorrowedBooksView_get user_id (run ops)).1).
Proof.
  intros Hok Hn Hk Hb Hl. cbn zeta. pose proof (wf_run ops) as Hwf.
  revert Hok. destruct (borrow_exits data (run ops)); simpl; try done.
  intros _. simplify_eq.
  assert (∀ u, user_borrowed_books (<[k:=mark_borrowed book]> (books (run ops)))
                 u (borrowed_books (run ops))
               = user_borrowed_books (books (run ops)) u
                   (borrowed_books (run ops))) as Hext.
  { intros u. apply user_borrowed_books_ext. intros k' Hk'.
    apply lookup_insert_ne. intros <-.
    by eapply not_borrowed_fresh. }
  assert (dict_set k (userId data) (borrowed_books (run ops))
          = borrowed_books (run ops) ++ [(k, userId data)]) as Hnew
    by (apply dict_set_fresh; by eapply not_borrowed_fresh).
  apply (listing_inv _ _ _ Hwf) in Hl as ([u Hu] & Hubb & _).
  split.
  - unfold UserBorrowedBooksView_get. simpl. rewrite Hu, Hnew.
    rewrite (user_borrowed_books_app _ _ _ _ l) by (by rewrite Hext).
    simpl. rewrite (proj2 (py_eq_int_spec _ _) Hn), lookup_insert_eq. done.
  - intros Hne. unfold UserBorrowedBooksView_get. simpl.
    destruct (users (run ops) !! user_id) eqn:Hu'; [|done]. rewrite Hnew.
    destruct (user_borrowed_books (books (run ops)) user_id
                (borrowed_books (run ops))) as [l'|e] eqn:E.
    + rewrite (user_borrowed_books_app _ _ _ _ l') by (by rewrite Hext).
      simpl. destruct (py_eq_int (userId data) user_id) eqn:Heq.
      * apply py_eq_int_spec in Heq. congruence.
      * by rewrite app_nil_r.
    + destruct (list_borrowed_never_raises (run ops) user_id Hwf) as [r Hr].
      revert Hr. unfold UserBorrowedBooksView_get. by rewrite Hu', E.
Qed.

Lemma borrow_extends_one_listing_witness :
  (UserBorrowedBooksView_get 1
     (BorrowBookView_post (request [("userId", VInt 1); ("bookId", VInt 1)])
        (run (take 2 scenario))).2).1
  = Ok (Resp 200 (BBooks
         ([] ++ [ {| b_id := 1; title := VStr "1984";
                     author := VStr "Orwell"; is_borrowed := true |} ]))).
Proof.
  apply (borrow_extends_one_listing (take 2 scenario)
           (request [("userId", VInt 1); ("bookId", VInt 1)]) 1 1
           {| b_id := 1; title := VStr "1984"; author := VStr "Orwell";
              is_borrowed := false |} [] 0); reflexivity.
Defined.
